(** * jsonata-extended: the extension functions of [src/lib/jsonata-functions.js]

    A shallow embedding of the JavaScript source.  Strings are sequences of
    UTF-16 code units, numbers are IEEE-754 doubles ([spec_float] at
    precision 53), values are the JSON-shaped values a JSONata expression
    hands to a registered function.  Calls that leave the file (the npm
    packages it requires, [URL], [JSON], [RegExp]) are recorded in a call
    log, so that "no delegate was invoked" is a statement about that log. *)

From Stdlib Require Import String Ascii ZArith List Bool Lia PeanoNat.
From Stdlib Require Import Floats.SpecFloat.
Import ListNotations.

Set Implicit Arguments.
Set Warnings "-register-all".

(** ** Strings: UTF-16 code units *)

Definition jsstring := list Z.

(** An ASCII literal as a JavaScript string. *)
Definition u16 (s : string) : jsstring :=
  map (fun a => Z.of_N (N_of_ascii a)) (list_ascii_of_string s).

Definition jsstring_eqb (a b : jsstring) : bool :=
  if list_eq_dec Z.eq_dec a b then true else false.

Definition is_high_surrogate (c : Z) : bool :=
  ((55296 <=? c) && (c <=? 56319))%Z.        (* \uD800-\uDBFF *)

Definition is_low_surrogate (c : Z) : bool :=
  ((56320 <=? c) && (c <=? 57343))%Z.        (* \uDC00-\uDFFF *)

(** [[...value]]: the string iterator yields one element per code point, a
    surrogate pair as one two-unit string, a lone surrogate by itself. *)
Fixpoint string_iterator (s : jsstring) : list jsstring :=
  match s with
  | [] => []
  | h :: t =>
      match t with
      | l :: t' =>
          if is_high_surrogate h && is_low_surrogate l
          then [h; l] :: string_iterator t'
          else [h] :: string_iterator t
      | [] => [[h]]
      end
  end.

(** [array.join('')] on an array of strings. *)
Definition join (a : list jsstring) : jsstring := concat a.

(** [s.replace(/([\uD800-\uDBFF])([\uDC00-\uDFFF])/g, '\u200D')] *)
Fixpoint replace_surrogate_pairs (s : jsstring) : jsstring :=
  match s with
  | [] => []
  | h :: t =>
      match t with
      | l :: t' =>
          if is_high_surrogate h && is_low_surrogate l
          then 8205%Z :: replace_surrogate_pairs t'
          else h :: replace_surrogate_pairs t
      | [] => [h]
      end
  end.

(** WhiteSpace and LineTerminator code units, as inclusive ranges: what
    [trim] strips and what [\s] matches. *)
Definition whitespace : list (Z * Z) :=
  [ (9, 13); (32, 32); (160, 160); (5760, 5760); (8192, 8202); (8232, 8233);
    (8239, 8239); (8287, 8287); (12288, 12288); (65279, 65279) ]%Z.

Definition in_ranges (c : Z) (ranges : list (Z * Z)) : bool :=
  existsb (fun r => (fst r <=? c) && (c <=? snd r))%Z ranges.

Fixpoint trim_start (s : jsstring) : jsstring :=
  match s with
  | c :: rest => if in_ranges c whitespace then trim_start rest else s
  | [] => []
  end.

(** [s.trim()] *)
Definition trim (s : jsstring) : jsstring :=
  rev (trim_start (rev (trim_start s))).

(** The number of code points of a string, as [[...s].length]. *)
Definition codepoint_count (s : jsstring) : nat := length (string_iterator s).

(** [s.endsWith(suffix)] as a proposition. *)
Definition ends_with (s suffix : jsstring) : Prop :=
  exists front, s = front ++ suffix.

(** Decimal digits of a natural number (array index keys, integer printing). *)
Fixpoint decimal_digits (fuel n : nat) (acc : jsstring) : jsstring :=
  match fuel with
  | O => acc
  | S f =>
      let acc' := (48 + Z.of_nat (n mod 10))%Z :: acc in
      if n <? 10 then acc' else decimal_digits f (n / 10) acc'
  end.

Definition nat_to_jsstring (n : nat) : jsstring := decimal_digits (S n) n [].

(** ** Numbers: IEEE-754 binary64 *)

Definition number := spec_float.

Definition prec : Z := 53.
Definition emax : Z := 1024.

Definition number_of_Z (z : Z) : number := binary_normalize prec emax z 0 false.
Definition number_of_nat (n : nat) : number := number_of_Z (Z.of_nat n).

Definition number_sub (a b : number) : number := SFsub prec emax a b.
Definition number_leb (a b : number) : bool := SFleb a b.

(** ToIntegerOrInfinity of the language specification. *)
Inductive integer_or_infinity :=
| Int (z : Z)
| PlusInfinity
| MinusInfinity.

Definition ToIntegerOrInfinity (x : number) : integer_or_infinity :=
  match x with
  | S754_nan => Int 0
  | S754_zero _ => Int 0
  | S754_infinity false => PlusInfinity
  | S754_infinity true => MinusInfinity
  | S754_finite s m e =>
      let magnitude :=
        if (0 <=? e)%Z then Z.shiftl (Z.pos m) e else Z.shiftr (Z.pos m) (- e) in
      Int (if s then - magnitude else magnitude)%Z
  end.

(** [array.slice(0, end)]: a negative [end] counts back from the end of the
    array, and the result is clipped to the array. *)
Definition slice_final (len : nat) (relativeEnd : integer_or_infinity) : nat :=
  match relativeEnd with
  | MinusInfinity => 0
  | PlusInfinity => len
  | Int z =>
      if (z <? 0)%Z then Z.to_nat (Z.max (Z.of_nat len + z) 0)
      else Z.to_nat (Z.min z (Z.of_nat len))
  end.

Definition slice0 (A : Type) (a : list A) (relativeEnd : integer_or_infinity) : list A :=
  firstn (slice_final (length a) relativeEnd) a.

(** ** Values *)

Inductive jsvalue :=
| VUndefined
| VNull
| VBool (b : bool)
| VNum (n : number)
| VStr (s : jsstring)
| VArr (items : list jsvalue)
| VObj (fields : list (jsstring * jsvalue)).

Definition object := list (jsstring * jsvalue).

Definition typeof (v : jsvalue) : jsstring :=
  match v with
  | VUndefined => u16 "undefined"
  | VNull => u16 "object"
  | VBool _ => u16 "boolean"
  | VNum _ => u16 "number"
  | VStr _ => u16 "string"
  | VArr _ => u16 "object"
  | VObj _ => u16 "object"
  end.

Definition is_undefined (v : jsvalue) : bool :=
  match v with VUndefined => true | _ => false end.

Definition is_number (v : jsvalue) : bool :=
  match v with VNum _ => true | _ => false end.

Definition is_string (v : jsvalue) : bool :=
  match v with VStr _ => true | _ => false end.

(** ToBoolean: [undefined], [null], [false], [0], [-0], [NaN] and the empty
    string are falsy. *)
Definition truthy (v : jsvalue) : bool :=
  match v with
  | VUndefined | VNull => false
  | VBool b => b
  | VNum (S754_zero _) | VNum S754_nan => false
  | VNum _ => true
  | VStr [] => false
  | VStr _ => true
  | VArr _ | VObj _ => true
  end.

(** Property read [o.k] on a plain object; [undefined] when absent.  Keys
    of an object are unique, the first binding is the property. *)
Fixpoint get (o : object) (k : jsstring) : jsvalue :=
  match o with
  | [] => VUndefined
  | (k', v) :: rest => if jsstring_eqb k' k then v else get rest k
  end.

(** Property write [o.k = v]: an existing key keeps its place. *)
Fixpoint set (o : object) (k : jsstring) (v : jsvalue) : object :=
  match o with
  | [] => [(k, v)]
  | (k', v') :: rest =>
      if jsstring_eqb k' k then (k, v) :: rest else (k', v') :: set rest k v
  end.

Definition get_property (v : jsvalue) (k : jsstring) : jsvalue :=
  match v with
  | VObj o => get o k
  | _ => VUndefined
  end.

Fixpoint indexed (A : Type) (i : nat) (l : list A) : list (nat * A) :=
  match l with
  | [] => []
  | x :: t => (i, x) :: indexed (S i) t
  end.

(** The own enumerable properties an object spread [{...src}] copies. *)
Definition own_enumerable (src : jsvalue) : object :=
  match src with
  | VObj o => o
  | VArr l => map (fun p => (nat_to_jsstring (fst p), snd p)) (indexed 0 l)
  | VStr s => map (fun p => (nat_to_jsstring (fst p), VStr [snd p])) (indexed 0 s)
  | _ => []
  end.

(** [{ ...base, ...src }], the properties in the order they were first set.
    (The engine lists integer-like keys before the others; the code reads
    the merged options by key only.) *)
Definition spread (base : object) (src : jsvalue) : object :=
  fold_left (fun o kv => set o (fst kv) (snd kv)) (own_enumerable src) base.

(** ** Completions and the call log *)

(** A thrown error object: its class ([Error], [TypeError], ...) and message. *)
Record error := Err { error_class : jsstring; error_message : jsstring }.

Definition Error (msg : jsstring) : error := Err (u16 "Error") msg.
Definition TypeError (msg : jsstring) : error := Err (u16 "TypeError") msg.

(** How a call ends: it returns, it throws, or the model ran out of fuel
    before the call ended (only loops consume fuel). *)
Inductive completion (A : Type) :=
| Return (a : A)
| Throw (e : error)
| OutOfFuel.

Arguments Return {A} a.
Arguments Throw {A} e.
Arguments OutOfFuel {A}.

(** Everything the file calls that it does not define. *)
Inductive callee :=
| html_to_text_convert
| uuidvalidate
| UuidEncoder_encode
| UuidEncoder_decode
| LanguageTag
| momentjs
| momentjs_duration
| URL
| urlParse
| JSON_parse_stringify
| path_parse
| Mustache_render
| ASCIIFolder_foldReplacing
| ASCIIFolder_foldMaintaining
| RegExp.

Record call := Call { call_callee : callee; call_arguments : list jsvalue }.

(** A computation: the calls it made, in order, and how it ended. *)
Definition M (A : Type) : Type := (list call * completion A)%type.

Definition ret {A} (a : A) : M A := ([], Return a).
Definition throw {A} (e : error) : M A := ([], Throw e).

Definition bind {A B} (m : M A) (k : A -> M B) : M B :=
  match m with
  | (log, Return a) => let (log', c) := k a in (log ++ log', c)
  | (log, Throw e) => (log, Throw e)
  | (log, OutOfFuel) => (log, OutOfFuel)
  end.

(** [try { m } catch (err) { handler }] *)
Definition try_catch {A} (m : M A) (handler : error -> M A) : M A :=
  match m with
  | (log, Throw e) => let (log', c) := handler e in (log ++ log', c)
  | other => other
  end.

Declare Scope js_scope.
Delimit Scope js_scope with js.
Notation "x <- m ;; k" := (bind m (fun x => k))
  (at level 61, m at next level, right associativity) : js_scope.

Definition calls {A} (m : M A) : list call := fst m.
Definition result {A} (m : M A) : completion A := snd m.

(** ** What the language runtime and the required packages provide *)

(** The built-ins of the language the file relies on without defining them:
    number printing, and the regular expression engine behind
    [new RegExp(source, 'gu')].  [RegExp_compile] is [None] when the
    constructor throws a SyntaxError; [RegExp_match r s i] runs the compiled
    matcher of [r] on [s] at code unit index [i] and gives the end index of
    the match, or [None] on failure.  The last three are the TypeErrors
    the engine throws, with its own wording: [[...v]] on a value that cannot
    be iterated, a call whose callee, written [callee] in the source, has
    the value [v] that is not a function, and [v[k]] on [undefined] or
    [null]. *)
Class Runtime := {
  Number_toString : number -> jsstring;
  regexp : Type;
  RegExp_compile : jsstring -> option regexp;
  RegExp_match : regexp -> jsstring -> nat -> option nat;
  not_iterable : jsvalue -> error;
  not_a_function : jsvalue -> string -> error;
  cannot_read_property : jsvalue -> jsstring -> error
}.

(** The packages behind the wrappers: what a call returns or throws. *)
Class Delegates := {
  delegate : callee -> list jsvalue -> completion jsvalue;
  countriesList : jsvalue
}.

Section Functions.

Context {RT : Runtime} {DG : Delegates}.

Local Open Scope js_scope.

(** A call that leaves the file is logged with its arguments. *)
Definition invoke (c : callee) (args : list jsvalue) : M jsvalue :=
  ([Call c args], delegate c args).

(** ToString, as a template literal applies it. *)
Fixpoint ToString (v : jsvalue) : jsstring :=
  match v with
  | VUndefined => u16 "undefined"
  | VNull => u16 "null"
  | VBool true => u16 "true"
  | VBool false => u16 "false"
  | VNum n => Number_toString n
  | VStr s => s
  | VArr items =>
      (fix join_items (l : list jsvalue) : jsstring :=
         match l with
         | [] => []
         | x :: rest =>
             let piece :=
               match x with
               | VUndefined | VNull => []
               | _ => ToString x
               end in
             match rest with
             | [] => piece
             | _ :: _ => piece ++ u16 "," ++ join_items rest
             end
         end) items
  | VObj _ => u16 "[object Object]"
  end.

(** [array.join(sep)]: [undefined] and [null] elements print as nothing. *)
Definition element_string (v : jsvalue) : jsstring :=
  match v with
  | VUndefined | VNull => []
  | _ => ToString v
  end.

Fixpoint join_strings (sep : jsstring) (l : list jsstring) : jsstring :=
  match l with
  | [] => []
  | x :: rest =>
      match rest with
      | [] => x
      | _ :: _ => x ++ sep ++ join_strings sep rest
      end
  end.

Definition Array_join (a : list jsvalue) (sep : jsstring) : jsstring :=
  join_strings sep (map element_string a).

(** [array.lastIndexOf(x)] for a string [x]: strict equality. *)
Definition strict_equals_string (v : jsvalue) (x : jsstring) : bool :=
  match v with
  | VStr y => jsstring_eqb y x
  | _ => false
  end.

Fixpoint Array_lastIndexOf_from (a : list jsvalue) (x : jsstring) (i found : Z) : Z :=
  match a with
  | [] => found
  | y :: t =>
      Array_lastIndexOf_from t x (i + 1)%Z (if strict_equals_string y x then i else found)
  end.

Definition Array_lastIndexOf (a : list jsvalue) (x : jsstring) : Z :=
  Array_lastIndexOf_from a x 0%Z (-1)%Z.

(** [[...value]] *)
Definition array_from_spread (v : jsvalue) : M (list jsvalue) :=
  match v with
  | VStr s => ret (map VStr (string_iterator s))
  | VArr items => ret items
  | _ => throw (not_iterable v)
  end.

(** lodash's [_.isString]; the values of the model hold no String objects. *)
Definition isString (v : jsvalue) : bool := is_string v.

(** *** The regular expression object

    [RegExp.prototype.exec] on a global, unicode regular expression, after
    RegExpBuiltinExec of the language specification: the search starts at
    [lastIndex], a failed attempt advances by one code point, a search
    beyond the end of the string gives [null].  A match gives its index and
    the new [lastIndex], the end of the match. *)

Definition AdvanceStringIndex (s : jsstring) (index : nat) : nat :=
  match nth_error s index, nth_error s (S index) with
  | Some h, Some l =>
      if is_high_surrogate h && is_low_surrogate l then index + 2 else index + 1
  | _, _ => index + 1
  end.

Fixpoint exec_scan (fuel : nat) (r : regexp) (s : jsstring) (lastIndex : nat)
  : option (nat * nat) :=
  match fuel with
  | O => None
  | S f =>
      if length s <? lastIndex then None
      else
        match RegExp_match r s lastIndex with
        | Some e => Some (lastIndex, e)
        | None => exec_scan f r s (AdvanceStringIndex s lastIndex)
        end
  end.

Definition exec (r : regexp) (s : jsstring) (lastIndex : nat) : option (nat * nat) :=
  exec_scan (S (S (length s))) r s lastIndex.

(** [new RegExp(source, 'gu')]; the SyntaxError of a source that does not
    compile is caught by the only caller. *)
Definition new_RegExp (source : jsstring) : M regexp :=
  ([Call RegExp [VStr source; VStr (u16 "gu")]],
   match RegExp_compile source with
   | Some r => Return r
   | None => Throw (Err (u16 "SyntaxError") (u16 "Invalid regular expression"))
   end).

(** *** truncate *)

(** [do { matched = separator.exec(s); lastMatch = matched ? matched.index :
    lastMatch; } while (matched);] with the [lastIndex] the regular
    expression object carries from one [exec] to the next.  [None]: the
    loop did not end within [fuel] iterations. *)
Fixpoint exec_loop (fuel : nat) (separator : regexp) (s : jsstring)
  (lastIndex : nat) (lastMatch : Z) : option Z :=
  match fuel with
  | O => None
  | S f =>
      match exec separator s lastIndex with
      | Some (index, lastIndex') => exec_loop f separator s lastIndex' (Z.of_nat index)
      | None => Some lastMatch
      end
  end.

Definition defaultOptions : object :=
  [ (u16 "length", VNum (number_of_Z 30));
    (u16 "omission", VStr (u16 "..."));
    (u16 "separator", VUndefined) ].

Definition localOptions (options : jsvalue) : object := spread defaultOptions options.

Definition expected_a (what field : string) (received : jsvalue) : error :=
  TypeError (u16 "Expected a " ++ u16 what ++ u16 ". Received options." ++ u16 field
             ++ u16 "=" ++ ToString received ++ u16 " Type: " ++ typeof received).

Definition endslice (length_ : number) (omission : jsstring) : number :=
  number_sub length_ (number_of_nat (length (string_iterator omission))).

Definition firstSlice (unicodeArray : list jsvalue) (length_ : number) (omission : jsstring)
  : list jsvalue :=
  slice0 unicodeArray (ToIntegerOrInfinity (endslice length_ omission)).

Definition firstSliceStringNormalised (unicodeArray : list jsvalue) (length_ : number)
  (omission : jsstring) : jsstring :=
  replace_surrogate_pairs (Array_join (firstSlice unicodeArray length_ omission) []).

(** The regular expression search of the [try] block. *)
Definition regex_search (fuel : nat) (wordbreakregex : jsstring) (normalised : jsstring)
  : M Z :=
  try_catch
    (separator <- new_RegExp wordbreakregex ;;
     match exec_loop fuel separator normalised 0 (-1) with
     | Some lastMatch => ret lastMatch
     | None => ([], OutOfFuel)
     end)
    (fun _ => throw (Error (u16 "Error Processing workdbreakregex."))).

(** The four checks on the merged options, in the order of the source;
    [None] when all pass. *)
Definition validate (localOptions : object) : option error :=
  let length_ := get localOptions (u16 "length") in
  let omission := get localOptions (u16 "omission") in
  let wordbreak := get localOptions (u16 "wordbreak") in
  let wordbreakregex := get localOptions (u16 "wordbreakregex") in
  if negb (jsstring_eqb (typeof length_) (u16 "number"))
  then Some (expected_a "number" "length" length_)
  else if negb (jsstring_eqb (typeof omission) (u16 "string"))
  then Some (expected_a "string" "omission" omission)
  else if truthy wordbreak && negb (jsstring_eqb (typeof wordbreak) (u16 "string"))
  then Some (expected_a "string" "wordbreak" wordbreak)
  else if truthy wordbreakregex && negb (jsstring_eqb (typeof wordbreakregex) (u16 "string"))
  then Some (expected_a "string" "wordbreakregex" wordbreakregex)
  else None.

(** A merged option read where the source uses it as a number or as a
    string; the checks of [validate] come first. *)
Definition number_value (v : jsvalue) : number :=
  match v with VNum n => n | _ => S754_nan end.

Definition string_value (v : jsvalue) : jsstring :=
  match v with VStr s => s | _ => [] end.

Definition truncate (fuel : nat) (value options : jsvalue) : M jsvalue :=
  if is_undefined value then ret VUndefined
  else
    let localOptions := localOptions options in
    match validate localOptions with
    | Some e => throw e
    | None =>
        let length_ := number_value (get localOptions (u16 "length")) in
        let omission := string_value (get localOptions (u16 "omission")) in
        let wordbreak := get localOptions (u16 "wordbreak") in
        let wordbreakregex := get localOptions (u16 "wordbreakregex") in
        unicodeArray <- array_from_spread value ;;
        if number_leb (number_of_nat (length unicodeArray)) length_
        then ret value
        else
          let firstSlice := firstSlice unicodeArray length_ omission in
          let normalised := firstSliceStringNormalised unicodeArray length_ omission in
          lastMatch <-
            (if truthy wordbreakregex && isString wordbreakregex
             then regex_search fuel (string_value wordbreakregex) normalised
             else ret (-1)%Z) ;;
          let lastMatch :=
            if truthy wordbreak && isString wordbreak && (lastMatch =? -1)%Z
            then Array_lastIndexOf firstSlice (string_value wordbreak)
            else lastMatch in
          let firstSlice :=
            if negb (lastMatch =? -1)%Z
            then slice0 unicodeArray (Int lastMatch)
            else firstSlice in
          ret (VStr (Array_join firstSlice [] ++ omission))
    end.

(** *** The wrappers around the packages *)

(** A parameter with a default value: [(value, base = 'base36') => ...]. *)
Definition default_parameter (given fallback : jsvalue) : jsvalue :=
  if is_undefined given then fallback else given.

(** [v[k]] and [v.k]: reading a property of [undefined] or [null] throws. *)
Definition read_property (v : jsvalue) (k : jsstring) : M jsvalue :=
  match v with
  | VUndefined | VNull => throw (cannot_read_property v k)
  | _ => ret (get_property v k)
  end.

Definition htmltotext (value options : jsvalue) : M jsvalue :=
  if is_undefined value then ret VUndefined
  else
    let defaultOptions :=
      [ (u16 "noLinkBrackets", VBool false);
        (u16 "wordwrap", VNull);
        (u16 "whitespaceCharacters", VStr [32; 9; 13; 10; 12; 8203; 160]%Z) ] in
    let localOptions := spread defaultOptions options in
    match value with
    | VStr s => invoke html_to_text_convert [VStr (trim s); VObj localOptions]
    | VNull => throw (cannot_read_property value (u16 "trim"))
    | _ => throw (not_a_function (get_property value (u16 "trim")) "value.trim")
    end.

Definition validBasex : list jsstring :=
  map u16 ["base2"; "base10"; "base16"; "base32"; "base36"; "base58"; "base62";
           "base64"; "base64url"]%string.

(** [validBasex.includes(base)] *)
Definition includes (l : list jsstring) (v : jsvalue) : bool :=
  existsb (strict_equals_string v) l.

Definition invalid_basex : error :=
  Error (u16 "Invalid basex. Valid values: " ++ join_strings (u16 ",") validBasex).

Definition shortenUuid (value base : jsvalue) : M jsvalue :=
  let base := default_parameter base (VStr (u16 "base36")) in
  if is_undefined value then ret VUndefined
  else
    valid <- invoke uuidvalidate [value] ;;
    if negb (truthy valid) then throw (Error (u16 "Invalid UUID"))
    else if negb (includes validBasex base) then throw invalid_basex
    else invoke UuidEncoder_encode [base; value].

Definition encodeUuid (value base : jsvalue) : M jsvalue :=
  let base := default_parameter base (VStr (u16 "base36")) in
  shortenUuid value base.

Definition unshortenUuid (value base : jsvalue) : M jsvalue :=
  let base := default_parameter base (VStr (u16 "base36")) in
  if is_undefined value then ret VUndefined
  else if negb (includes validBasex base) then throw invalid_basex
  else
    result <- invoke UuidEncoder_decode [base; value] ;;
    ret result.

Definition decodeUuid (value base : jsvalue) : M jsvalue :=
  let base := default_parameter base (VStr (u16 "base36")) in
  unshortenUuid value base.

Definition languageInfo (value : jsvalue) : M jsvalue :=
  if is_undefined value then ret VUndefined
  else
    langTag <- invoke LanguageTag [value] ;;
    if truthy (get_property langTag (u16 "invalid"))
    then throw (Error (u16 "Invalid RFC5646 Tag. Value: " ++ ToString value))
    else
      region <-
        (if truthy (get_property langTag (u16 "region"))
         then
           countries <- read_property countriesList (u16 "countries") ;;
           read_property countries (ToString (get_property langTag (u16 "region")))
         else ret VNull) ;;
      languagesAll <- read_property countriesList (u16 "languagesAll") ;;
      language <- read_property languagesAll (ToString (get_property langTag (u16 "language"))) ;;
      ret (VObj [ (u16 "rfc5646", value); (u16 "region", region); (u16 "language", language) ]).

Definition parseUrl (value : jsvalue) : M jsvalue :=
  if is_undefined value then ret VUndefined
  else
    try_catch
      (url <- invoke URL [value] ;;
       let href := get_property url (u16 "href") in
       parsed <- invoke urlParse [href; VBool true] ;;
       invoke JSON_parse_stringify [parsed])
      (fun err => throw (Error (u16 "Invalid URL"))).

Definition parsePath (value : jsvalue) : M jsvalue :=
  if is_undefined value then ret VUndefined
  else
    parsed <- invoke path_parse [value] ;;
    invoke JSON_parse_stringify [parsed].

Definition moment (args : list jsvalue) : M jsvalue := invoke momentjs args.

Definition momentDuration (args : list jsvalue) : M jsvalue :=
  invoke momentjs_duration args.

Definition mustache (value template : jsvalue) : M jsvalue :=
  if is_undefined value then ret VUndefined
  else if is_undefined template then ret value
  else invoke Mustache_render [template; value].

Definition unicodeToASCII (value options : jsvalue) : M jsvalue :=
  if is_undefined value then ret VUndefined
  else
    let defaultOptions := [ (u16 "replacement", VUndefined) ] in
    let localOptions := spread defaultOptions options in
    if negb (is_undefined (get localOptions (u16 "replacement")))
    then invoke ASCIIFolder_foldReplacing [value; get localOptions (u16 "replacement")]
    else invoke ASCIIFolder_foldMaintaining [value].

(** *** Registration *)

(** One [expression.registerFunction(name, implementation, signature)]
    call.  An implementation receives the arguments of the call; the fuel
    bounds the one loop there is, in [truncate]. *)
Record registration := Registration {
  name : jsstring;
  implementation : nat -> list jsvalue -> M jsvalue;
  signature : jsstring
}.

(** The [expression] argument: absent, [null], an object whose
    [registerFunction] property is absent or a method of the host, which
    may throw, or an object whose [registerFunction] property holds a value
    that is not a function ([5], [null], an object; [undefined] too, which
    reads as an absent property does).  A number, a string or a boolean
    given for the expression has no such property and behaves as
    [ExpressionObject None]. *)
Inductive expression :=
| ExpressionUndefined
| ExpressionNull
| ExpressionObject (registerFunction : option (registration -> option error))
| ExpressionNotCallable (registerFunction : jsvalue).

(** The i-th argument of a call; [undefined] when the call has fewer. *)
Definition argument (i : nat) (args : list jsvalue) : jsvalue := nth i args VUndefined.

Definition registrations : list registration :=
  [ Registration (u16 "htmltotext")
      (fun _ args => htmltotext (argument 0 args) (argument 1 args)) (u16 "<s?o?:s>");
    Registration (u16 "shortenUuid")
      (fun _ args => shortenUuid (argument 0 args) (argument 1 args)) (u16 "<s?s?:s>");
    Registration (u16 "unshortenUuid")
      (fun _ args => unshortenUuid (argument 0 args) (argument 1 args)) (u16 "<s?s?:s>");
    Registration (u16 "encodeUuid")
      (fun _ args => encodeUuid (argument 0 args) (argument 1 args)) (u16 "<s?s?:s>");
    Registration (u16 "decodeUuid")
      (fun _ args => decodeUuid (argument 0 args) (argument 1 args)) (u16 "<s?s?:s>");
    Registration (u16 "truncate")
      (fun fuel args => truncate fuel (argument 0 args) (argument 1 args)) (u16 "<s?o?:s>");
    Registration (u16 "languageInfo")
      (fun _ args => languageInfo (argument 0 args)) (u16 "<s?:o>");
    Registration (u16 "parseUrl")
      (fun _ args => parseUrl (argument 0 args)) (u16 "<s?:o>");
    Registration (u16 "parsePath")
      (fun _ args => parsePath (argument 0 args)) (u16 "<s?:o>");
    Registration (u16 "moment") (fun _ args => moment args) (u16 "<(sna)?(sa)?(sb)?b?:o>");
    Registration (u16 "momentDuration")
      (fun _ args => momentDuration args) (u16 "<(sno)?s?:o>");
    Registration (u16 "mustache")
      (fun _ args => mustache (argument 0 args) (argument 1 args)) (u16 "<o?s?:s>");
    Registration (u16 "unicodeToASCII")
      (fun _ args => unicodeToASCII (argument 0 args) (argument 1 args)) (u16 "<s?o?:s>") ].

(** The statements of [registerWithJSONATA] after its guard, one
    [registerFunction] call after the other; a call that throws ends the
    run.  The result is the calls made, in order, and how the run ended. *)
Fixpoint register_all (registerFunction : registration -> option error)
  (todo : list registration) : list registration * completion unit :=
  match todo with
  | [] => ([], Return tt)
  | r :: rest =>
      match registerFunction r with
      | Some e => ([r], Throw e)
      | None =>
          let (made, c) := register_all registerFunction rest in (r :: made, c)
      end
  end.

Definition registerWithJSONATA (expression : expression)
  : list registration * completion unit :=
  match expression with
  | ExpressionUndefined => ([], Throw (TypeError (u16 "Invalid JSONata Expression")))
  | ExpressionNull => ([], Throw (cannot_read_property VNull (u16 "registerFunction")))
  | ExpressionObject None => ([], Throw (TypeError (u16 "Invalid JSONata Expression")))
  | ExpressionObject (Some registerFunction) => register_all registerFunction registrations
  | ExpressionNotCallable registerFunction =>
      if is_undefined registerFunction
      then ([], Throw (TypeError (u16 "Invalid JSONata Expression")))
      else ([], Throw (not_a_function registerFunction "expression.registerFunction"))
  end.

End Functions.

(** ** A small runtime to run the functions on

    An instance of [Runtime] for concrete runs.  Its regular expressions are
    the sequences of atoms, each with an optional [*], [+] or [?]; an atom
    is a character, [.], a bracketed class, or an escape among [\s], [\d],
    [\w], the control escapes and the escaped syntax characters.  On the
    sources of this fragment it follows the engine with the flags [gu].
    Any other source is refused here, though the engine accepts some of
    them (groups, alternatives, anchors, assertions, braces, lazy
    quantifiers, the remaining escapes, code points above U+FFFF), and a
    number that is not an integer prints as its integer part: the runs
    below stay within the fragment and use integers only. *)
Module Mini.

Inductive atom :=
| AnyChar
| Class (negated : bool) (ranges : list (Z * Z)).

Inductive node :=
| One (a : atom)
| Star (a : atom)
| Plus (a : atom)
| Opt (a : atom).

Definition pattern := list node.

Definition digits : list (Z * Z) := [ (48, 57) ]%Z.

Definition line_terminators : list (Z * Z) :=
  [ (10, 10); (13, 13); (8232, 8233) ]%Z.

(** The code point at index [i] and the index after it. *)
Definition code_point_at (s : jsstring) (i : nat) : option (Z * nat) :=
  match nth_error s i with
  | None => None
  | Some h =>
      match nth_error s (S i) with
      | Some l =>
          if is_high_surrogate h && is_low_surrogate l
          then Some ((65536 + (h - 55296) * 1024 + (l - 56320))%Z, i + 2)
          else Some (h, i + 1)
      | None => Some (h, i + 1)
      end
  end.

Definition atom_match (a : atom) (s : jsstring) (i : nat) : option nat :=
  match code_point_at s i with
  | None => None
  | Some (c, next) =>
      let ok :=
        match a with
        | AnyChar => negb (in_ranges c line_terminators)
        | Class negated ranges => xorb negated (in_ranges c ranges)
        end in
      if ok then Some next else None
  end.

(** The indices a greedy run of [a] from [i] passes, longest first. *)
Fixpoint run_ends (fuel : nat) (a : atom) (s : jsstring) (i : nat) : list nat :=
  match fuel with
  | O => [i]
  | S f =>
      match atom_match a s i with
      | Some next => run_ends f a s next ++ [i]
      | None => [i]
      end
  end.

Fixpoint first_some (A B : Type) (f : A -> option B) (l : list A) : option B :=
  match l with
  | [] => None
  | x :: rest => match f x with Some y => Some y | None => first_some f rest end
  end.

(** The backtracking matcher: the end index of the match of [p] at [i]. *)
Fixpoint match_at (p : pattern) (s : jsstring) (i : nat) : option nat :=
  match p with
  | [] => Some i
  | One a :: rest =>
      match atom_match a s i with
      | Some next => match_at rest s next
      | None => None
      end
  | Star a :: rest => first_some (match_at rest s) (run_ends (length s) a s i)
  | Plus a :: rest =>
      match atom_match a s i with
      | Some next => first_some (match_at rest s) (run_ends (length s) a s next)
      | None => None
      end
  | Opt a :: rest =>
      match atom_match a s i with
      | Some next =>
          match match_at rest s next with
          | Some e => Some e
          | None => match_at rest s i
          end
      | None => match_at rest s i
      end
  end.

Definition syntax_character (c : Z) : bool :=
  existsb (Z.eqb c) (u16 "^$\.*+?()[]{}|/").

Definition word_characters : list (Z * Z) :=
  [ (48, 57); (65, 90); (95, 95); (97, 122) ]%Z.

(** What follows a backslash: a single character ([inl]) for a control
    escape or an escaped syntax character, a set ([inr]) for a character
    class escape. *)
Definition escape (c : Z) : option (Z + list (Z * Z)) :=
  if (c =? 115)%Z then Some (inr whitespace)           (* \s *)
  else if (c =? 100)%Z then Some (inr digits)          (* \d *)
  else if (c =? 119)%Z then Some (inr word_characters) (* \w *)
  else if (c =? 116)%Z then Some (inl 9%Z)             (* \t *)
  else if (c =? 110)%Z then Some (inl 10%Z)            (* \n *)
  else if (c =? 118)%Z then Some (inl 11%Z)            (* \v *)
  else if (c =? 102)%Z then Some (inl 12%Z)            (* \f *)
  else if (c =? 114)%Z then Some (inl 13%Z)            (* \r *)
  else if syntax_character c then Some (inl c)
  else None.

Definition members (a : Z + list (Z * Z)) : list (Z * Z) :=
  match a with
  | inl c => [(c, c)]
  | inr r => r
  end.

(** One member of a class and what follows it; in a class [\-] is a dash. *)
Definition class_atom (s : jsstring) : option ((Z + list (Z * Z)) * jsstring) :=
  match s with
  | [] => None
  | c :: rest =>
      if (c =? 92)%Z then                               (* \ *)
        match rest with
        | e :: rest' =>
            match (if (e =? 45)%Z then Some (inl e) else escape e) with
            | Some a => Some (a, rest')
            | None => None
            end
        | [] => None
        end
      else Some (inl c, rest)
  end.

(** The members of a class up to its closing bracket, and what follows.
    With the [u] flag a range whose end is a character class escape, or
    whose ends are out of order, is a SyntaxError. *)
Fixpoint parse_class (fuel : nat) (s : jsstring) (acc : list (Z * Z))
  : option (list (Z * Z) * jsstring) :=
  match fuel with
  | O => None
  | S f =>
      match s with
      | [] => None
      | c :: rest =>
          if (c =? 93)%Z then Some (acc, rest)         (* ] *)
          else
            match class_atom s with
            | None => None
            | Some (lo, rest1) =>
                match rest1 with
                | dash :: ((hi0 :: _) as rest2) =>
                    if (dash =? 45)%Z && negb (hi0 =? 93)%Z
                    then
                      match class_atom rest2 with
                      | Some (hi, rest3) =>
                          match lo, hi with
                          | inl l, inl h =>
                              if (l <=? h)%Z then parse_class f rest3 (acc ++ [(l, h)])
                              else None
                          | _, _ => None
                          end
                      | None => None
                      end
                    else parse_class f rest1 (acc ++ members lo)
                | _ => parse_class f rest1 (acc ++ members lo)
                end
            end
      end
  end.

Definition parse_atom (s : jsstring) : option (atom * jsstring) :=
  match s with
  | [] => None
  | c :: rest =>
      if (c =? 92)%Z then
        match rest with
        | e :: rest' =>
            match escape e with
            | Some a => Some (Class false (members a), rest')
            | None => None
            end
        | [] => None
        end
      else if (c =? 91)%Z then                          (* [ *)
        match rest with
        | 94%Z :: rest' =>                              (* ^ *)
            match parse_class (length rest') rest' [] with
            | Some (r, rest'') => Some (Class true r, rest'')
            | None => None
            end
        | _ =>
            match parse_class (length rest) rest [] with
            | Some (r, rest'') => Some (Class false r, rest'')
            | None => None
            end
        end
      else if (c =? 46)%Z then Some (AnyChar, rest)    (* . *)
      else if syntax_character c && negb (c =? 47)%Z then None
      else Some (Class false [(c, c)], rest)
  end.

Fixpoint parse (fuel : nat) (s : jsstring) : option pattern :=
  match fuel with
  | O => None
  | S f =>
      match s with
      | [] => Some []
      | _ :: _ =>
          match parse_atom s with
          | None => None
          | Some (a, rest) =>
              let quantified :=
                match rest with
                | q :: rest' =>
                    if (q =? 42)%Z then (Star a, rest')
                    else if (q =? 43)%Z then (Plus a, rest')
                    else if (q =? 63)%Z then (Opt a, rest')
                    else (One a, rest)
                | [] => (One a, rest)
                end in
              match parse f (snd quantified) with
              | Some p => Some (fst quantified :: p)
              | None => None
              end
          end
      end
  end.

Definition compile (source : jsstring) : option pattern :=
  if existsb (fun c => is_high_surrogate c || is_low_surrogate c) source then None
  else parse (S (length source)) source.

Definition print_number (x : number) : jsstring :=
  match x with
  | S754_nan => u16 "NaN"
  | S754_infinity false => u16 "Infinity"
  | S754_infinity true => u16 "-Infinity"
  | S754_zero _ => u16 "0"
  | S754_finite s _ _ =>
      match ToIntegerOrInfinity x with
      | Int z => (if s then u16 "-" else []) ++ nat_to_jsstring (Z.to_nat (Z.abs z))
      | _ => []
      end
  end.

Definition ToString_nullish (v : jsvalue) : jsstring :=
  match v with VNull => u16 "null" | _ => u16 "undefined" end.

#[export] Instance runtime : Runtime := {
  Number_toString := print_number;
  regexp := pattern;
  RegExp_compile := compile;
  RegExp_match := match_at;
  not_iterable := fun v => TypeError (u16 "value is not iterable");
  not_a_function := fun v callee =>
    TypeError (u16 callee ++ u16 " is not a function");
  cannot_read_property := fun v k =>
    TypeError (u16 "Cannot read properties of " ++ ToString_nullish v
               ++ u16 " (reading '" ++ k ++ u16 "')")
}.

End Mini.

(** ** Vocabulary of the properties *)

(** The option fields [truncate] checks, and the type each must have. *)
Definition expected_type (field : string) : string :=
  if String.eqb field "length" then "number" else "string".

(** A field of the merged options that fails its check: [length] when not a
    number, [omission] when not a string, [wordbreak] and [wordbreakregex]
    when truthy and not a string. *)
Definition offending (localOptions : object) (field : string) : bool :=
  let v := get localOptions (u16 field) in
  if String.eqb field "length" then negb (is_number v)
  else if String.eqb field "omission" then negb (is_string v)
  else if String.eqb field "wordbreak" || String.eqb field "wordbreakregex"
  then truthy v && negb (is_string v)
  else false.



(** The message of the TypeError for a field and the value received. *)
Definition type_error_message {RT : Runtime} (field : string) (received : jsvalue)
  : jsstring :=
  u16 "Expected a " ++ u16 (expected_type field) ++ u16 ". Received options."
  ++ u16 field ++ u16 "=" ++ ToString received ++ u16 " Type: " ++ typeof received.

(** The matches a regular expression object yields when [exec] is called
    again and again from [lastIndex]: each as its index and the [lastIndex]
    it leaves.  At most [fuel] of them are listed. *)
Fixpoint successive_matches {RT : Runtime} (fuel : nat) (r : regexp) (s : jsstring)
  (lastIndex : nat) : list (nat * nat) :=
  match fuel with
  | O => []
  | S f =>
      match exec r s lastIndex with
      | Some (index, lastIndex') => (index, lastIndex') :: successive_matches f r s lastIndex'
      | None => []
      end
  end.

(** The index of the last of them, [-1] when there is none. *)
Definition last_match_index (matches : list (nat * nat)) : Z :=
  last (map (fun m => Z.of_nat (fst m)) matches) (-1)%Z.

(** The names [registerWithJSONATA] binds, in the order of the source. *)
Definition registered_names : list jsstring :=
  map u16 ["htmltotext"; "shortenUuid"; "unshortenUuid"; "encodeUuid"; "decodeUuid";
           "truncate"; "languageInfo"; "parseUrl"; "parsePath"; "moment";
           "momentDuration"; "mustache"; "unicodeToASCII"]%string.

Module Examples.

Definition text (s : string) : jsvalue := VStr (u16 s).
Definition num (z : Z) : jsvalue := VNum (number_of_Z z).

(** An object literal. *)
Definition obj (l : list (string * jsvalue)) : jsvalue :=
  VObj (map (fun p => (u16 (fst p), snd p)) l).

(** A decoder that reads its input as a string, as [str.toLowerCase()] does,
    and so throws the engine's TypeError on a number; every other call
    returns [undefined]. *)
Definition string_only_decoder : Delegates := {|
  delegate := fun c args =>
    match c, args with
    | UuidEncoder_decode, [_; VStr _] => Return (VStr (u16 "00000000-0000-0000-0000-000000000000"))
    | UuidEncoder_decode, _ => Throw (TypeError (u16 "str.toLowerCase is not a function"))
    | _, _ => Return VUndefined
    end;
  countriesList := VObj []
|}.

(** A URL constructor that refuses every input, and a language tag parser
    that flags every tag invalid. *)
Definition refusing : Delegates := {|
  delegate := fun c args =>
    match c with
    | URL => Throw (TypeError (u16 "Invalid URL"))
    | LanguageTag => Return (obj [("invalid"%string, VBool true)])
    | _ => Return VUndefined
    end;
  countriesList := VObj []
|}.

(** A URL constructor that accepts every string, with a URL parser that
    fails on the href 'a:' and gives nothing for '//', which the JSON round
    trip cannot parse back. *)
Definition late_failures : Delegates := {|
  delegate := fun c args =>
    match c, args with
    | URL, [VStr s] => Return (obj [("href"%string, VStr s)])
    | URL, _ => Throw (TypeError (u16 "Invalid URL"))
    | urlParse, [VStr [97; 58]%Z; _] => Throw (TypeError (u16 "Cannot parse a:"))
    | urlParse, [VStr [47; 47]%Z; _] => Return VUndefined
    | urlParse, [href; _] => Return (obj [("href"%string, href)])
    | JSON_parse_stringify, [VUndefined] =>
        Throw (Err (u16 "SyntaxError") (u16 "Unexpected token u in JSON at position 0"))
    | JSON_parse_stringify, [v] => Return v
    | _, _ => Return VUndefined
    end;
  countriesList := VObj []
|}.

(** A date library that answers every call with a moment object. *)
Definition moment_object : jsvalue := obj [("_isAMomentObject"%string, VBool true)].

Definition clock : Delegates := {|
  delegate := fun c args =>
    match c with
    | momentjs | momentjs_duration => Return moment_object
    | _ => Return VUndefined
    end;
  countriesList := VObj []
|}.

(** A host whose [registerFunction] accepts every binding. *)
Definition accepting_host : expression := ExpressionObject (Some (fun _ => None)).

End Examples.

(** ** The callers, and more vocabulary *)

(** [Object.prototype.hasOwnProperty.call(o, k)], and ['k' in o] on a plain
    object for a key that [Object.prototype] does not have. *)
Definition has_key (o : object) (k : jsstring) : bool :=
  existsb (fun kv => jsstring_eqb (fst kv) k) o.

(** The code unit that stands for a code point in the normalised prefix:
    itself, or U+200D for a surrogate pair. *)
Definition placeholder_unit (e : jsstring) : Z :=
  match e with
  | [c] => c
  | _ => 8205%Z
  end.

Definition is_whitespace (c : Z) : bool := in_ranges c whitespace.

(** The first code unit of a string is not a low surrogate (or there is
    none): appended to any string, it starts a code point of its own. *)
Definition starts_code_point (s : jsstring) : bool :=
  match s with
  | [] => true
  | c :: _ => negb (is_low_surrogate c)
  end.

(** The slice truncate joins, as a function of the index the regular
    expression search left: the literal wordbreak is looked for when that
    index is -1, and the cut is at the index found, if any. *)
Definition slice_at_word_break (unicodeArray firstSlice : list jsvalue)
  (wordbreak : jsvalue) (lastMatch : Z) : list jsvalue :=
  let lastMatch :=
    if truthy wordbreak && isString wordbreak && (lastMatch =? -1)%Z
    then Array_lastIndexOf firstSlice (string_value wordbreak)
    else lastMatch in
  if negb (lastMatch =? -1)%Z
  then slice0 unicodeArray (Int lastMatch)
  else firstSlice.

Section Callers.

Context {RT : Runtime} {DG : Delegates}.

(** [jsonataExtended] of the package's main module: [jsonataOriginal] is
    the [jsonata] package, which gives an expression object or throws.  The
    result is the registerFunction calls made and the expression returned. *)
Definition jsonataExtended (jsonataOriginal : jsvalue -> jsvalue -> completion expression)
  (expr options : jsvalue) : list registration * completion expression :=
  match jsonataOriginal expr options with
  | Return expression =>
      match registerWithJSONATA expression with
      | (made, Return _) => (made, Return expression)
      | (made, Throw e) => (made, Throw e)
      | (made, OutOfFuel) => (made, OutOfFuel)
      end
  | Throw e => ([], Throw e)
  | OutOfFuel => ([], OutOfFuel)
  end.


End Callers.

Module MoreExamples.

Import Examples.

(** A UUID package that accepts the strings of 36 code units and encodes
    and decodes by fixed answers. *)
Definition uuid_library : Delegates := {|
  delegate := fun c args =>
    match c, args with
    | uuidvalidate, [VStr s] => Return (VBool (length s =? 36))
    | uuidvalidate, _ => Return (VBool false)
    | UuidEncoder_encode, _ => Return (text "1m5otdkthiyq143crwujacdqg")
    | UuidEncoder_decode, _ => Return (text "1b49aa30-e719-11e6-9835-f723b46a2688")
    | _, _ => Return VUndefined
    end;
  countriesList := VObj []
|}.

(** A language tag parser that takes the whole tag for the language and
    finds no region, over tables that know Spanish only. *)
Definition tag_library : Delegates := {|
  delegate := fun c args =>
    match c, args with
    | LanguageTag, [VStr s] =>
        Return (obj [("language"%string, VStr s); ("invalid"%string, VBool false)])
    | _, _ => Return VUndefined
    end;
  countriesList :=
    obj [("countries"%string, obj []);
         ("languagesAll"%string,
          obj [("es"%string, obj [("name"%string, text "Spanish")])])]
|}.

(** A path module that refuses anything but a string. *)
Definition path_library : Delegates := {|
  delegate := fun c args =>
    match c, args with
    | path_parse, [VStr _] => Return (obj [("root"%string, text "/")])
    | path_parse, _ => Throw (TypeError (u16 "The path argument must be of type string"))
    | JSON_parse_stringify, [v] => Return v
    | _, _ => Return VUndefined
    end;
  countriesList := VObj []
|}.

(** A host that refuses the binding of one name. *)
Definition refusing_host (refused : string) : registration -> option error :=
  fun r =>
    if jsstring_eqb (name r) (u16 refused)
    then Some (Error (u16 "Attempted to bind a refused name"))
    else None.

(** A [jsonata] that parses strings only. *)
Definition string_jsonata (expr options : jsvalue) : completion expression :=
  match expr with
  | VStr _ => Return accepting_host
  | _ => Throw (Error (u16 "Syntax error"))
  end.

End MoreExamples.

(** * Properties *)

Section Properties.

Context {RT : Runtime} {DG : Delegates}.

Local Open Scope js_scope.

(** ** The call log monad *)

Lemma bind_ret (A B : Type) (a : A) (k : A -> M B) : bind (ret a) k = k a.
Proof. unfold bind, ret. destruct (k a). reflexivity. Qed.

Lemma bind_throw (A B : Type) (e : error) (k : A -> M B) : bind (throw e) k = throw e.
Proof. reflexivity. Qed.

Lemma bind_invoke_return (B : Type) c args v (k : jsvalue -> M B) :
  delegate c args = Return v ->
  bind (invoke c args) k = (Call c args :: calls (k v), result (k v)).
Proof.
  intros H. unfold bind, invoke. rewrite H. destruct (k v). reflexivity.
Qed.

Lemma bind_invoke_throw (B : Type) c args e (k : jsvalue -> M B) :
  delegate c args = Throw e ->
  bind (invoke c args) k = ([Call c args], Throw e).
Proof. intros H. unfold bind, invoke. rewrite H. reflexivity. Qed.

(** ** typeof and string equality *)

Lemma jsstring_eqb_eq (a b : jsstring) : jsstring_eqb a b = true <-> a = b.
Proof.
  unfold jsstring_eqb. destruct (list_eq_dec Z.eq_dec a b); split; congruence.
Qed.

Lemma jsstring_eqb_refl (a : jsstring) : jsstring_eqb a a = true.
Proof. apply jsstring_eqb_eq. reflexivity. Qed.

Lemma typeof_number (v : jsvalue) : jsstring_eqb (typeof v) (u16 "number") = is_number v.
Proof. destruct v; reflexivity. Qed.

Lemma typeof_string (v : jsvalue) : jsstring_eqb (typeof v) (u16 "string") = is_string v.
Proof. destruct v; reflexivity. Qed.

(** ** Validation of the merged options *)

Lemma validate_passes (lo : object) :
  validate lo = None <->
  is_number (get lo (u16 "length")) = true /\
  is_string (get lo (u16 "omission")) = true /\
  (truthy (get lo (u16 "wordbreak")) = true -> is_string (get lo (u16 "wordbreak")) = true) /\
  (truthy (get lo (u16 "wordbreakregex")) = true ->
   is_string (get lo (u16 "wordbreakregex")) = true).
Proof.
  unfold validate. rewrite !typeof_number, !typeof_string.
  destruct (is_number (get lo (u16 "length"))); simpl.
  2: { split; [discriminate | intros [H _]; discriminate]. }
  destruct (is_string (get lo (u16 "omission"))); simpl.
  2: { split; [discriminate | intros (_ & H & _); discriminate]. }
  destruct (truthy (get lo (u16 "wordbreak"))),
           (is_string (get lo (u16 "wordbreak"))); simpl;
  destruct (truthy (get lo (u16 "wordbreakregex"))),
           (is_string (get lo (u16 "wordbreakregex"))); simpl;
  split; try discriminate; try tauto;
  intros (_ & _ & H1 & H2);
  try (specialize (H1 eq_refl); discriminate);
  try (specialize (H2 eq_refl); discriminate).
Qed.

Lemma offending_fields (lo : object) (field : string) :
  offending lo field = true ->
  (field = "length"%string /\ is_number (get lo (u16 "length")) = false) \/
  (field = "omission"%string /\ is_string (get lo (u16 "omission")) = false) \/
  (field = "wordbreak"%string /\ truthy (get lo (u16 "wordbreak")) = true
     /\ is_string (get lo (u16 "wordbreak")) = false) \/
  (field = "wordbreakregex"%string /\ truthy (get lo (u16 "wordbreakregex")) = true
     /\ is_string (get lo (u16 "wordbreakregex")) = false).
Proof.
  unfold offending.
  destruct (String.eqb_spec field "length") as [->|_].
  { intros H. left. split; [reflexivity|]. now apply negb_true_iff. }
  destruct (String.eqb_spec field "omission") as [->|_].
  { intros H. right; left. split; [reflexivity|]. now apply negb_true_iff. }
  destruct (String.eqb_spec field "wordbreak") as [->|_].
  { simpl. intros H. apply andb_true_iff in H as [H1 H2].
    right; right; left. repeat split; [assumption|]. now apply negb_true_iff. }
  destruct (String.eqb_spec field "wordbreakregex") as [->|_].
  { simpl. intros H. apply andb_true_iff in H as [H1 H2].
    right; right; right. repeat split; [assumption|]. now apply negb_true_iff. }
  discriminate.
Qed.

Lemma validate_rejects (lo : object) :
  (exists field, offending lo field = true) ->
  exists field,
    offending lo field = true /\
    validate lo = Some (TypeError (type_error_message field (get lo (u16 field)))).
Proof.
  intros [f Hf]. apply offending_fields in Hf.
  unfold validate. rewrite !typeof_number, !typeof_string.
  destruct (is_number (get lo (u16 "length"))) eqn:Hlen; simpl.
  2: { exists "length"%string. split; [|reflexivity].
       unfold offending; simpl. now rewrite Hlen. }
  destruct (is_string (get lo (u16 "omission"))) eqn:Hom; simpl.
  2: { exists "omission"%string. split; [|reflexivity].
       unfold offending; simpl. now rewrite Hom. }
  destruct (truthy (get lo (u16 "wordbreak")) &&
            negb (is_string (get lo (u16 "wordbreak")))) eqn:Hwb.
  { exists "wordbreak"%string. split; [|reflexivity].
    unfold offending; simpl. exact Hwb. }
  destruct (truthy (get lo (u16 "wordbreakregex")) &&
            negb (is_string (get lo (u16 "wordbreakregex")))) eqn:Hwbr.
  { exists "wordbreakregex"%string. split; [|reflexivity].
    unfold offending; simpl. exact Hwbr. }
  exfalso.
  destruct Hf as [[_ H]|[[_ H]|[(_ & H1 & H2)|(_ & H1 & H2)]]]; try congruence.
  - rewrite H1, H2 in Hwb. discriminate.
  - rewrite H1, H2 in Hwbr. discriminate.
Qed.




(** ** truncate below the length *)

(** The first step of every proof about truncate on a string: the value is
    defined, the merged options are next. *)
Ltac truncate_on_string := unfold truncate; simpl is_undefined; cbv iota.

Lemma length_array_of_string (s : jsstring) :
  length (map VStr (string_iterator s)) = codepoint_count s.
Proof. unfold codepoint_count. apply length_map. Qed.

(** C6 (as amended).  For every string whose code point count is at most
    the merged length, and options that pass the four checks, truncate
    returns the string itself: nothing is appended and no call is made. *)
Theorem truncate_within_length_unchanged (fuel : nat) (s : jsstring)
  (options : jsvalue) (length_ : number) :
  validate (localOptions options) = None ->
  get (localOptions options) (u16 "length") = VNum length_ ->
  number_leb (number_of_nat (codepoint_count s)) length_ = true ->
  truncate fuel (VStr s) options = ([], Return (VStr s)).
Proof.
  intros Hval Hlen Hle. truncate_on_string.
  rewrite Hval, Hlen. unfold array_from_spread. rewrite bind_ret.
  simpl number_value. rewrite length_array_of_string, Hle. reflexivity.
Qed.

(** The form of the specification, [truncate(s, {length})]: an options
    object with a numeric length and nothing else passes the checks. *)
Lemma truncate_length_only_unchanged (fuel : nat) (s : jsstring) (length_ : number) :
  number_leb (number_of_nat (codepoint_count s)) length_ = true ->
  truncate fuel (VStr s) (VObj [(u16 "length", VNum length_)]) = ([], Return (VStr s)).
Proof.
  intros H. truncate_on_string.
  change (validate (localOptions (VObj [(u16 "length", VNum length_)]))) with (@None error).
  unfold array_from_spread. rewrite bind_ret.
  change (get (localOptions (VObj [(u16 "length", VNum length_)])) (u16 "length"))
    with (VNum length_).
  simpl number_value. rewrite length_array_of_string, H. reflexivity.
Qed.

(** ** The UUID wrappers *)

Lemma default_parameter_idempotent (given fallback : jsvalue) :
  is_undefined fallback = false ->
  default_parameter (default_parameter given fallback) fallback
  = default_parameter given fallback.
Proof.
  intros H. unfold default_parameter.
  destruct (is_undefined given) eqn:E; [rewrite H | rewrite E]; reflexivity.
Qed.

(** C9.  encodeUuid gives what shortenUuid gives and decodeUuid what
    unshortenUuid gives, for every value and base: the same calls, the same
    result or the same error. *)
Theorem uuid_aliases (value base : jsvalue) :
  encodeUuid value base = shortenUuid value base /\
  decodeUuid value base = unshortenUuid value base.
Proof.
  unfold encodeUuid, decodeUuid, shortenUuid, unshortenUuid.
  rewrite default_parameter_idempotent by reflexivity. split; reflexivity.
Qed.

Lemma invalid_basex_message :
  invalid_basex =
  Error (u16 "Invalid basex. Valid values: base2,base10,base16,base32,base36,base58,base62,base64,base64url").
Proof. reflexivity. Qed.

Lemma unshortenUuid_refuses_base (value base : jsvalue) :
  is_undefined value = false ->
  includes validBasex (default_parameter base (VStr (u16 "base36"))) = false ->
  unshortenUuid value base = ([], Throw invalid_basex).
Proof. intros Hv Hb. unfold unshortenUuid. rewrite Hv, Hb. reflexivity. Qed.

Lemma unshortenUuid_decodes (value base : jsvalue) :
  is_undefined value = false ->
  includes validBasex (default_parameter base (VStr (u16 "base36"))) = true ->
  unshortenUuid value base =
    ([Call UuidEncoder_decode [default_parameter base (VStr (u16 "base36")); value]],
     delegate UuidEncoder_decode [default_parameter base (VStr (u16 "base36")); value]).
Proof.
  intros Hv Hb. unfold unshortenUuid. rewrite Hv, Hb. simpl negb. cbv iota.
  unfold bind, invoke, ret.
  destruct (delegate UuidEncoder_decode _); reflexivity.
Qed.

(** C10.  For every defined value, the base is the only thing unshortenUuid
    checks: a base outside the nine names is refused with the 'Invalid
    basex' error before any call, and otherwise the decoder is called once,
    on the value as it is, and its outcome is the outcome; an 'Invalid UUID'
    error can only be the decoder's own. *)
Theorem unshortenUuid_guards_only_base (value base : jsvalue) :
  is_undefined value = false ->
  let b := default_parameter base (VStr (u16 "base36")) in
  (includes validBasex b = false ->
   unshortenUuid value base =
     ([], Throw (Error (u16 "Invalid basex. Valid values: base2,base10,base16,base32,base36,base58,base62,base64,base64url")))) /\
  (includes validBasex b = true ->
   unshortenUuid value base =
     ([Call UuidEncoder_decode [b; value]], delegate UuidEncoder_decode [b; value])) /\
  (result (unshortenUuid value base) = Throw (Error (u16 "Invalid UUID")) ->
   includes validBasex b = true /\
   delegate UuidEncoder_decode [b; value] = Throw (Error (u16 "Invalid UUID"))).
Proof.
  intros Hv b. repeat split.
  - intros Hb. rewrite <- invalid_basex_message. now apply unshortenUuid_refuses_base.
  - intros Hb. now apply unshortenUuid_decodes.
  - destruct (includes validBasex b) eqn:Hb; [reflexivity|].
    rewrite unshortenUuid_refuses_base in H by assumption.
    vm_compute in H. discriminate.
  - destruct (includes validBasex b) eqn:Hb.
    + rewrite unshortenUuid_decodes in H by assumption. exact H.
    + rewrite unshortenUuid_refuses_base in H by assumption.
      vm_compute in H. discriminate.
Qed.

(** ** Delegate failures *)

Lemma parseUrl_only_invalid_url (value : jsvalue) (e : error) :
  result (parseUrl value) = Throw e -> e = Error (u16 "Invalid URL").
Proof.
  unfold parseUrl. destruct (is_undefined value); [discriminate|].
  match goal with |- result (try_catch ?m _) = _ -> _ => destruct m as [log [v|e'|]] end;
    simpl; intros H; try discriminate.
  now inversion H.
Qed.

Lemma parseUrl_wraps_URL_failure (value : jsvalue) (e : error) :
  is_undefined value = false ->
  delegate URL [value] = Throw e ->
  parseUrl value = ([Call URL [value]], Throw (Error (u16 "Invalid URL"))).
Proof.
  intros Hv H. unfold parseUrl. rewrite Hv.
  erewrite bind_invoke_throw by eassumption. reflexivity.
Qed.

Lemma parseUrl_wraps_urlParse_failure (value url : jsvalue) (e : error) :
  is_undefined value = false ->
  delegate URL [value] = Return url ->
  delegate urlParse [get_property url (u16 "href"); VBool true] = Throw e ->
  parseUrl value
  = ([Call URL [value]; Call urlParse [get_property url (u16 "href"); VBool true]],
     Throw (Error (u16 "Invalid URL"))).
Proof.
  intros Hv Hurl H. unfold parseUrl. rewrite Hv.
  erewrite bind_invoke_return by eassumption.
  erewrite bind_invoke_throw by eassumption. reflexivity.
Qed.

Lemma parseUrl_wraps_JSON_failure (value url parsed : jsvalue) (e : error) :
  is_undefined value = false ->
  delegate URL [value] = Return url ->
  delegate urlParse [get_property url (u16 "href"); VBool true] = Return parsed ->
  delegate JSON_parse_stringify [parsed] = Throw e ->
  parseUrl value
  = ([Call URL [value]; Call urlParse [get_property url (u16 "href"); VBool true];
      Call JSON_parse_stringify [parsed]],
     Throw (Error (u16 "Invalid URL"))).
Proof.
  intros Hv Hurl Hparse H. unfold parseUrl. rewrite Hv.
  erewrite bind_invoke_return by eassumption.
  erewrite bind_invoke_return by eassumption.
  unfold invoke. rewrite H. reflexivity.
Qed.

Lemma languageInfo_invalid_tag (value tag : jsvalue) :
  is_undefined value = false ->
  delegate LanguageTag [value] = Return tag ->
  truthy (get_property tag (u16 "invalid")) = true ->
  languageInfo value =
    ([Call LanguageTag [value]],
     Throw (Error (u16 "Invalid RFC5646 Tag. Value: " ++ ToString value))).
Proof.
  intros Hv Htag Hinv. unfold languageInfo. rewrite Hv.
  erewrite bind_invoke_return by eassumption. rewrite Hinv. reflexivity.
Qed.

(** C5 (as amended).  For every defined input: parseUrl lets no error out
    but Error('Invalid URL'), and raises it when the URL constructor fails,
    when the URL parser fails on the href, and when the JSON round trip
    fails on what the parser returned; languageInfo raises Error('Invalid RFC5646 Tag. Value: ...') when the
    parsed tag is flagged invalid; unshortenUuid and decodeUuid raise the
    'Invalid basex' error for an unsupported base, before the decoder is
    called. *)
Theorem delegate_failures_described (value : jsvalue) :
  is_undefined value = false ->
  (forall e, result (parseUrl value) = Throw e -> e = Error (u16 "Invalid URL")) /\
  (forall e, delegate URL [value] = Throw e ->
     parseUrl value = ([Call URL [value]], Throw (Error (u16 "Invalid URL")))) /\
  (forall url e, delegate URL [value] = Return url ->
     delegate urlParse [get_property url (u16 "href"); VBool true] = Throw e ->
     parseUrl value
     = ([Call URL [value]; Call urlParse [get_property url (u16 "href"); VBool true]],
        Throw (Error (u16 "Invalid URL")))) /\
  (forall url parsed e, delegate URL [value] = Return url ->
     delegate urlParse [get_property url (u16 "href"); VBool true] = Return parsed ->
     delegate JSON_parse_stringify [parsed] = Throw e ->
     parseUrl value
     = ([Call URL [value]; Call urlParse [get_property url (u16 "href"); VBool true];
         Call JSON_parse_stringify [parsed]],
        Throw (Error (u16 "Invalid URL")))) /\
  (forall tag, delegate LanguageTag [value] = Return tag ->
     truthy (get_property tag (u16 "invalid")) = true ->
     languageInfo value =
       ([Call LanguageTag [value]],
        Throw (Error (u16 "Invalid RFC5646 Tag. Value: " ++ ToString value)))) /\
  (forall base,
     includes validBasex (default_parameter base (VStr (u16 "base36"))) = false ->
     unshortenUuid value base = ([], Throw invalid_basex) /\
     decodeUuid value base = ([], Throw invalid_basex)).
Proof.
  intros Hv. repeat split.
  - apply parseUrl_only_invalid_url.
  - intros e He. now apply parseUrl_wraps_URL_failure with e.
  - intros url e Hurl He. now apply parseUrl_wraps_urlParse_failure with e.
  - intros url parsed e Hurl Hp He. now apply parseUrl_wraps_JSON_failure with e.
  - intros tag Ht Hi. now apply languageInfo_invalid_tag with tag.
  - now apply unshortenUuid_refuses_base.
  - unfold decodeUuid, unshortenUuid at 1.
    rewrite default_parameter_idempotent by reflexivity.
    fold (unshortenUuid value base). now apply unshortenUuid_refuses_base.
Qed.

(** What the wrappers without a handler do with a delegate's exception: it
    reaches the caller as it was thrown. *)
Lemma unshortenUuid_passes_decoder_error (value base : jsvalue) (e : error) :
  is_undefined value = false ->
  includes validBasex (default_parameter base (VStr (u16 "base36"))) = true ->
  delegate UuidEncoder_decode [default_parameter base (VStr (u16 "base36")); value] = Throw e ->
  unshortenUuid value base =
    ([Call UuidEncoder_decode [default_parameter base (VStr (u16 "base36")); value]], Throw e).
Proof. intros Hv Hb He. rewrite unshortenUuid_decodes by assumption. rewrite He. reflexivity. Qed.

(** ** Registration *)

Lemma register_all_accepting (rf : registration -> option error) (l : list registration) :
  (forall x, rf x = None) -> register_all rf l = (l, Return tt).
Proof.
  intros H. induction l as [|r l IH]; simpl; [reflexivity|].
  rewrite H, IH. reflexivity.
Qed.

Lemma registerWithJSONATA_accepting (rf : registration -> option error) :
  (forall x, rf x = None) ->
  registerWithJSONATA (ExpressionObject (Some rf)) = (registrations, Return tt).
Proof. intros H. now apply (register_all_accepting rf registrations). Qed.

Lemma registration_names : map name registrations = registered_names.
Proof. reflexivity. Qed.

Lemma registered_names_distinct : NoDup registered_names.
Proof.
  vm_compute.
  repeat (constructor; [simpl; intuition discriminate|]). constructor.
Qed.

(** C3 (as amended).  registerWithJSONATA fails with the same TypeError,
    'Invalid JSONata Expression', for an undefined expression and for an
    object whose registerFunction is absent or undefined; an object whose
    registerFunction holds any other value that is not a function passes
    the guard and fails at the first call, with the engine's TypeError for a
    callee that is not a function and nothing bound; on a host that accepts
    every binding it succeeds after one registerFunction call per function,
    thirteen in all, under thirteen distinct names. *)
Theorem registerWithJSONATA_guard_and_bindings (rf : registration -> option error)
  (v : jsvalue) :
  (forall x, rf x = None) ->
  registerWithJSONATA ExpressionUndefined
    = ([], Throw (TypeError (u16 "Invalid JSONata Expression"))) /\
  registerWithJSONATA (ExpressionObject None)
    = ([], Throw (TypeError (u16 "Invalid JSONata Expression"))) /\
  registerWithJSONATA (ExpressionNotCallable VUndefined)
    = ([], Throw (TypeError (u16 "Invalid JSONata Expression"))) /\
  (is_undefined v = false ->
   registerWithJSONATA (ExpressionNotCallable v)
     = ([], Throw (not_a_function v "expression.registerFunction"))) /\
  snd (registerWithJSONATA (ExpressionObject (Some rf))) = Return tt /\
  map name (fst (registerWithJSONATA (ExpressionObject (Some rf)))) = registered_names /\
  NoDup registered_names /\
  length (fst (registerWithJSONATA (ExpressionObject (Some rf)))) = 13.
Proof.
  intros H. rewrite registerWithJSONATA_accepting by assumption.
  split; [reflexivity|]. split; [reflexivity|]. split; [reflexivity|]. split.
  - intros Hv. simpl. now rewrite Hv.
  - repeat split; try reflexivity. apply registered_names_distinct.
Qed.

(** C2 (as amended).  Of the functions registerWithJSONATA binds, every one
    but moment and momentDuration, called with its first argument undefined
    or absent, returns undefined without a call and without an error;
    moment and momentDuration hand their arguments to the date library as
    they are. *)
Theorem registered_functions_propagate_undefined (rf : registration -> option error)
  (r : registration) (fuel : nat) (args : list jsvalue) :
  (forall x, rf x = None) ->
  In r (fst (registerWithJSONATA (ExpressionObject (Some rf)))) ->
  (name r <> u16 "moment" -> name r <> u16 "momentDuration" ->
   argument 0 args = VUndefined ->
   implementation r fuel args = ([], Return VUndefined)) /\
  (name r = u16 "moment" ->
   implementation r fuel args = ([Call momentjs args], delegate momentjs args)) /\
  (name r = u16 "momentDuration" ->
   implementation r fuel args = ([Call momentjs_duration args], delegate momentjs_duration args)).
Proof.
  intros Hrf Hin. rewrite registerWithJSONATA_accepting in Hin by assumption.
  simpl in Hin.
  repeat (destruct Hin as [<-|Hin]); try contradiction;
    (split; [|split]);
    try (intros Hn; vm_compute in Hn; discriminate);
    try (intros H1 H2; exfalso; first [now apply H1 | now apply H2]);
    try (intros _ _ Ha; cbn [implementation]; rewrite Ha; reflexivity);
    try (intros _; reflexivity).
Qed.

(** ** The regular expression search *)

Lemma AdvanceStringIndex_gt (s : jsstring) (i : nat) : i < AdvanceStringIndex s i.
Proof.
  unfold AdvanceStringIndex.
  destruct (nth_error s i); [destruct (nth_error s (S i))|]; try lia.
  destruct (is_high_surrogate z && is_low_surrogate z0); lia.
Qed.

Lemma exec_scan_found (fuel : nat) (r : regexp) (s : jsstring) (lastIndex i e : nat) :
  exec_scan fuel r s lastIndex = Some (i, e) ->
  lastIndex <= i <= length s /\ RegExp_match r s i = Some e.
Proof.
  revert lastIndex. induction fuel as [|f IH]; intros li; simpl; [discriminate|].
  destruct (Nat.ltb_spec (length s) li); [discriminate|].
  destruct (RegExp_match r s li) eqn:Hm.
  - intros H'. inversion H'; subst. split; [lia | assumption].
  - intros H'. apply IH in H'. pose proof (AdvanceStringIndex_gt s li). split; [lia | tauto].
Qed.

(** The fuel of [exec] is never what ends the scan: any fuel from
    [length s + 2 - lastIndex] on gives the same answer. *)
Lemma exec_scan_fuel (r : regexp) (s : jsstring) (fuel : nat) :
  forall fuel' lastIndex,
    S (S (length s)) - lastIndex <= fuel ->
    S (S (length s)) - lastIndex <= fuel' ->
    exec_scan fuel r s lastIndex = exec_scan fuel' r s lastIndex.
Proof.
  induction fuel as [|f IH]; intros [|f'] li H1 H2; simpl; try reflexivity.
  - destruct (Nat.ltb_spec (length s) li); [reflexivity | lia].
  - destruct (Nat.ltb_spec (length s) li); [reflexivity | lia].
  - destruct (Nat.ltb_spec (length s) li); [reflexivity|].
    destruct (RegExp_match r s li); [reflexivity|].
    pose proof (AdvanceStringIndex_gt s li). apply IH; lia.
Qed.

Lemma exec_found (r : regexp) (s : jsstring) (lastIndex i e : nat) :
  exec r s lastIndex = Some (i, e) ->
  lastIndex <= i <= length s /\ RegExp_match r s i = Some e.
Proof. apply exec_scan_found. Qed.

Lemma exec_match_here (r : regexp) (s : jsstring) (lastIndex e : nat) :
  lastIndex <= length s ->
  RegExp_match r s lastIndex = Some e ->
  exec r s lastIndex = Some (lastIndex, e).
Proof.
  intros Hle Hm. unfold exec. simpl.
  destruct (Nat.ltb_spec (length s) lastIndex); [lia|]. rewrite Hm. reflexivity.
Qed.

(** A match that leaves [lastIndex] where it was is found again by the next
    [exec]: the loop never ends. *)
Lemma exec_loop_stuck (r : regexp) (s : jsstring) (lastIndex index : nat) :
  exec r s lastIndex = Some (index, lastIndex) ->
  forall fuel lastMatch, exec_loop fuel r s lastIndex lastMatch = None.
Proof.
  intros H fuel. induction fuel as [|f IH]; intros lm; simpl; [reflexivity|].
  rewrite H. apply IH.
Qed.

(** When every match consumes at least one code unit, the loop ends within
    [length s + 2] iterations. *)
Lemma exec_loop_terminates (r : regexp) (s : jsstring) :
  (forall i e, RegExp_match r s i = Some e -> i < e) ->
  forall fuel lastIndex lastMatch,
    S (S (length s) - lastIndex) <= fuel ->
    exists m, exec_loop fuel r s lastIndex lastMatch = Some m.
Proof.
  intros Hprogress fuel. induction fuel as [|f IH]; intros li lm Hfuel; [lia|].
  simpl. destruct (exec r s li) as [[i e]|] eqn:He.
  - apply exec_found in He as [Hi Hm]. apply Hprogress in Hm.
    apply IH. lia.
  - eexists. reflexivity.
Qed.

Lemma last_cons_default (A : Type) (l : list A) :
  forall x d, last (x :: l) d = last l x.
Proof.
  induction l as [|y l IH]; intros x d; [reflexivity|].
  change (last (x :: y :: l) d) with (last (y :: l) d).
  rewrite (IH y d), (IH y x). reflexivity.
Qed.

(** What the loop records is the index of the last of the successive
    matches, and after that one [exec] finds nothing. *)
Lemma exec_loop_last (r : regexp) (s : jsstring) (fuel : nat) :
  forall lastIndex lastMatch m,
    exec_loop fuel r s lastIndex lastMatch = Some m ->
    m = last (map (fun x => Z.of_nat (fst x)) (successive_matches fuel r s lastIndex)) lastMatch /\
    exec r s (last (map snd (successive_matches fuel r s lastIndex)) lastIndex) = None.
Proof.
  induction fuel as [|f IH]; intros li lm m; simpl; [discriminate|].
  destruct (exec r s li) as [[i e]|] eqn:He.
  - intros H. apply IH in H as [H1 H2].
    rewrite !map_cons, !last_cons_default. split; assumption.
  - intros H. inversion H; subst. split; [reflexivity | exact He].
Qed.


(** ** truncate at a regular expression match *)

Lemma slice0_nonneg (A : Type) (a : list A) (m : Z) :
  (0 <= m)%Z -> slice0 a (Int m) = firstn (Z.to_nat m) a.
Proof.
  intros Hm. unfold slice0, slice_final.
  destruct (Z.ltb_spec m 0); [lia|].
  destruct (Z.le_ge_cases m (Z.of_nat (length a))).
  - rewrite Z.min_l by assumption. reflexivity.
  - rewrite Z.min_r by assumption. rewrite Nat2Z.id.
    rewrite !firstn_all2 by lia. reflexivity.
Qed.

Lemma Array_join_strings (l : list jsstring) : Array_join (map VStr l) [] = join l.
Proof.
  unfold Array_join, join. induction l as [|x l IH]; [reflexivity|].
  simpl. destruct l as [|y l]; simpl in *.
  - now rewrite app_nil_r.
  - now rewrite IH.
Qed.



(** ** Code points of prefixes *)

(** Induction along the string iterator: a pair is consumed whole. *)
Lemma string_iterator_induction (P : jsstring -> Prop) :
  P [] ->
  (forall h, P [h]) ->
  (forall h l t, is_high_surrogate h && is_low_surrogate l = true -> P t -> P (h :: l :: t)) ->
  (forall h l t, is_high_surrogate h && is_low_surrogate l = false ->
                 P (l :: t) -> P (h :: l :: t)) ->
  forall s, P s.
Proof.
  intros Hnil Hone Hpair Hsingle s.
  assert (H : forall n s, length s <= n -> P s).
  { induction n as [|n IH]; intros [|h [|l t]] Hlen; simpl in Hlen; try lia; auto.
    destruct (is_high_surrogate h && is_low_surrogate l) eqn:E.
    - apply Hpair; [assumption|]. apply IH. lia.
    - apply Hsingle; [assumption|]. apply IH. simpl. lia. }
  apply (H (length s)). lia.
Qed.

Lemma string_iterator_pair (h l : Z) (t : jsstring) :
  is_high_surrogate h && is_low_surrogate l = true ->
  string_iterator (h :: l :: t) = [h; l] :: string_iterator t.
Proof. intros E. simpl. rewrite E. reflexivity. Qed.

Lemma string_iterator_single (h l : Z) (t : jsstring) :
  is_high_surrogate h && is_low_surrogate l = false ->
  string_iterator (h :: l :: t) = [h] :: string_iterator (l :: t).
Proof. intros E. simpl. rewrite E. reflexivity. Qed.

(** Every element the iterator yields is one code point. *)
Lemma string_iterator_elements (s : jsstring) :
  forall e, In e (string_iterator s) -> codepoint_count e = 1.
Proof.
  induction s as [| h | h l t E IH | h l t E IH] using string_iterator_induction;
    intros e He.
  - destruct He.
  - destruct He as [<-|[]]. reflexivity.
  - rewrite string_iterator_pair in He by assumption.
    destruct He as [<-|He]; [|now apply IH].
    unfold codepoint_count. rewrite string_iterator_pair by assumption. reflexivity.
  - rewrite string_iterator_single in He by assumption.
    destruct He as [<-|He]; [reflexivity | now apply IH].
Qed.

(** One more code unit in front changes the count by at most one. *)
Lemma codepoint_count_cons (s : jsstring) :
  forall c, codepoint_count s <= codepoint_count (c :: s) <= 1 + codepoint_count s.
Proof.
  unfold codepoint_count.
  induction s as [|y t IH]; intros c; [simpl; lia|].
  destruct (is_high_surrogate c && is_low_surrogate y) eqn:E.
  - rewrite string_iterator_pair by assumption. cbn [length].
    specialize (IH y). lia.
  - rewrite string_iterator_single by assumption. cbn [length]. lia.
Qed.

Lemma codepoint_count_app (a b : jsstring) :
  codepoint_count (a ++ b) <= codepoint_count a + codepoint_count b.
Proof.
  induction a as [| h | h l t E IH | h l t E IH] using string_iterator_induction.
  - simpl. lia.
  - change ([h] ++ b) with (h :: b). pose proof (codepoint_count_cons b h).
    change (codepoint_count [h]) with 1. lia.
  - change ((h :: l :: t) ++ b) with (h :: l :: t ++ b).
    unfold codepoint_count in *. rewrite !string_iterator_pair by assumption.
    cbn [length]. lia.
  - change ((h :: l :: t) ++ b) with (h :: l :: t ++ b).
    change ((l :: t) ++ b) with (l :: t ++ b) in IH.
    unfold codepoint_count in *. rewrite !string_iterator_single by assumption.
    cbn [length]. lia.
Qed.

Lemma In_firstn (A : Type) (j : nat) (l : list A) (x : A) :
  In x (firstn j l) -> In x l.
Proof.
  intros H. rewrite <- (firstn_skipn j l). apply in_or_app. left. assumption.
Qed.

Lemma codepoint_count_concat (l : list jsstring) :
  (forall e, In e l -> codepoint_count e = 1) ->
  codepoint_count (concat l) <= length l.
Proof.
  induction l as [|e l IH]; intros H; [apply le_n|].
  simpl concat. pose proof (codepoint_count_app e (concat l)).
  rewrite (H e) in * by (left; reflexivity).
  assert (codepoint_count (concat l) <= length l)
    by (apply IH; intros; apply H; right; assumption).
  cbn [length]. lia.
Qed.

(** A prefix of the iterated string, put together again, starts with the
    code unit the string starts with. *)
Lemma prefix_head (s : jsstring) (j : nat) :
  concat (firstn j (string_iterator s)) = [] \/
  exists x rest t, concat (firstn j (string_iterator s)) = x :: rest /\ s = x :: t.
Proof.
  destruct j as [|j]; [left; reflexivity|].
  destruct s as [|h [|l t]]; [left; reflexivity | |].
  - right. exists h, [], []. destruct j; split; reflexivity.
  - right. simpl. destruct (is_high_surrogate h && is_low_surrogate l);
      simpl; eexists _, _, _; split; reflexivity.
Qed.

Lemma replace_surrogate_pairs_pair (h l : Z) (t : jsstring) :
  is_high_surrogate h && is_low_surrogate l = true ->
  replace_surrogate_pairs (h :: l :: t) = 8205%Z :: replace_surrogate_pairs t.
Proof. intros E. simpl. rewrite E. reflexivity. Qed.

Lemma replace_surrogate_pairs_single (h l : Z) (t : jsstring) :
  is_high_surrogate h && is_low_surrogate l = false ->
  replace_surrogate_pairs (h :: l :: t) = h :: replace_surrogate_pairs (l :: t).
Proof. intros E. simpl. rewrite E. reflexivity. Qed.

(** After the replacement of the pairs the prefix has one code unit for
    each of its code points. *)
Lemma normalised_prefix_length (s : jsstring) :
  forall j,
    length (replace_surrogate_pairs (concat (firstn j (string_iterator s))))
    = length (firstn j (string_iterator s)).
Proof.
  induction s as [| h | h l t E IH | h l t E IH] using string_iterator_induction;
    intros [|j]; try reflexivity.
  - destruct j; reflexivity.
  - rewrite string_iterator_pair by assumption.
    change (concat (firstn (S j) ([h; l] :: string_iterator t)))
      with (h :: l :: concat (firstn j (string_iterator t))).
    rewrite replace_surrogate_pairs_pair by assumption.
    cbn [length firstn]. now rewrite IH.
  - rewrite string_iterator_single by assumption.
    change (concat (firstn (S j) ([h] :: string_iterator (l :: t))))
      with (h :: concat (firstn j (string_iterator (l :: t)))).
    specialize (IH j).
    destruct (prefix_head (l :: t) j) as [Hnil|(x & rest & t' & Hcons & Hhead)].
    + rewrite Hnil in *. simpl in *. now rewrite <- IH.
    + inversion Hhead; subst x t'. rewrite Hcons in *.
      rewrite replace_surrogate_pairs_single by assumption.
      cbn [length firstn]. now rewrite IH.
Qed.

(** ** The indices the two searches give *)

Lemma exec_loop_range (r : regexp) (s : jsstring) (fuel : nat) :
  forall lastIndex lastMatch m,
    exec_loop fuel r s lastIndex lastMatch = Some m ->
    m = lastMatch \/ (0 <= m <= Z.of_nat (length s))%Z.
Proof.
  induction fuel as [|f IH]; intros li lm m; simpl; [discriminate|].
  destruct (exec r s li) as [[i e]|] eqn:He.
  - intros H. apply IH in H. apply exec_found in He. right. lia.
  - intros H. inversion H. left. reflexivity.
Qed.

Lemma regex_search_range (fuel : nat) (source normalised : jsstring) (m : Z) :
  result (regex_search fuel source normalised) = Return m ->
  m = (-1)%Z \/ (0 <= m <= Z.of_nat (length normalised))%Z.
Proof.
  unfold regex_search, new_RegExp.
  destruct (RegExp_compile source) as [r|]; [|discriminate].
  unfold bind.
  destruct (exec_loop fuel r normalised 0 (-1)) as [m'|] eqn:Hloop; [|discriminate].
  simpl. intros H. inversion H; subst. now apply exec_loop_range in Hloop.
Qed.

Lemma Array_lastIndexOf_from_range (a : list jsvalue) (x : jsstring) :
  forall i found,
    Array_lastIndexOf_from a x i found = found \/
    (i <= Array_lastIndexOf_from a x i found < i + Z.of_nat (length a))%Z.
Proof.
  induction a as [|y a IH]; intros i found; [left; reflexivity|].
  simpl Array_lastIndexOf_from.
  destruct (strict_equals_string y x).
  - right. destruct (IH (i + 1)%Z i) as [->|H]; simpl length; lia.
  - destruct (IH (i + 1)%Z found) as [->|H]; [left; reflexivity|].
    right. simpl length. lia.
Qed.

Lemma Array_lastIndexOf_range (a : list jsvalue) (x : jsstring) :
  Array_lastIndexOf a x = (-1)%Z \/
  (0 <= Array_lastIndexOf a x < Z.of_nat (length a))%Z.
Proof.
  unfold Array_lastIndexOf.
  destruct (Array_lastIndexOf_from_range a x 0 (-1)); [left | right]; lia.
Qed.

(** ** truncate beyond the length *)

(** Whatever truncate returns for a string longer than the length ends with
    the omission string. *)
Lemma truncate_ends_with_omission (fuel : nat) (s : jsstring) (options : jsvalue)
  (length_ : number) (omission : jsstring) (v : jsvalue) :
  validate (localOptions options) = None ->
  get (localOptions options) (u16 "length") = VNum length_ ->
  get (localOptions options) (u16 "omission") = VStr omission ->
  number_leb (number_of_nat (codepoint_count s)) length_ = false ->
  result (truncate fuel (VStr s) options) = Return v ->
  exists t, v = VStr t /\ ends_with t omission.
Proof.
  intros Hval Hlen Hom Hgt. truncate_on_string.
  rewrite Hval, Hlen, Hom. unfold array_from_spread. rewrite bind_ret.
  simpl number_value. simpl string_value. rewrite length_array_of_string, Hgt.
  match goal with |- result (bind ?m _) = _ -> _ => destruct m as [log [lm|e|]] end;
    simpl; try discriminate.
  intros H. inversion H. eexists. split; [reflexivity|]. eexists. reflexivity.
Qed.

(** X22.  When the end index [length - count(omission)] the code computes
    is not negative, what truncate returns has at most that many code points plus
    those of the omission string, and ends with the omission string. *)
Lemma truncate_bounded_when_omission_fits (fuel : nat) (s : jsstring)
  (options : jsvalue) (length_ : number) (omission : jsstring) (k : Z) (v : jsvalue) :
  validate (localOptions options) = None ->
  get (localOptions options) (u16 "length") = VNum length_ ->
  get (localOptions options) (u16 "omission") = VStr omission ->
  number_leb (number_of_nat (codepoint_count s)) length_ = false ->
  ToIntegerOrInfinity (endslice length_ omission) = Int k ->
  (0 <= k)%Z ->
  result (truncate fuel (VStr s) options) = Return v ->
  exists t,
    v = VStr t /\ ends_with t omission /\
    codepoint_count t <= Z.to_nat k + codepoint_count omission.
Proof.
  intros Hval Hlen Hom Hgt Hk Hk0. truncate_on_string.
  rewrite Hval, Hlen, Hom. unfold array_from_spread. rewrite bind_ret.
  simpl number_value. simpl string_value. rewrite length_array_of_string, Hgt.
  assert (Hfirst : firstSlice (map VStr (string_iterator s)) length_ omission
                   = map VStr (firstn (Z.to_nat k) (string_iterator s))).
  { unfold firstSlice. rewrite Hk, slice0_nonneg by assumption. apply firstn_map. }
  assert (Hnorm : length (firstSliceStringNormalised (map VStr (string_iterator s))
                            length_ omission)
                  = length (firstn (Z.to_nat k) (string_iterator s))).
  { unfold firstSliceStringNormalised. rewrite Hfirst, Array_join_strings.
    apply normalised_prefix_length. }
  rewrite Hfirst.
  assert (Hle2 : length (firstn (Z.to_nat k) (string_iterator s)) <= Z.to_nat k)
    by (rewrite length_firstn; lia).
  match goal with
  | |- result (bind ?m _) = _ -> _ => destruct m as [log [m1| |]] eqn:Hm
  end; simpl; try discriminate.
  assert (Hm1 : m1 = (-1)%Z \/
                (0 <= m1 <= Z.of_nat (length (firstn (Z.to_nat k) (string_iterator s))))%Z).
  { rewrite <- Hnorm.
    destruct (truthy (get (localOptions options) (u16 "wordbreakregex")) &&
              isString (get (localOptions options) (u16 "wordbreakregex"))).
    - eapply regex_search_range. rewrite Hm. reflexivity.
    - inversion Hm. left. reflexivity. }
  set (m2 := if truthy (get (localOptions options) (u16 "wordbreak")) &&
                isString (get (localOptions options) (u16 "wordbreak")) && (m1 =? -1)%Z
             then Array_lastIndexOf (map VStr (firstn (Z.to_nat k) (string_iterator s)))
                    (string_value (get (localOptions options) (u16 "wordbreak")))
             else m1).
  assert (Hm2 : m2 = (-1)%Z \/
                (0 <= m2 <= Z.of_nat (length (firstn (Z.to_nat k) (string_iterator s))))%Z).
  { subst m2.
    destruct (truthy (get (localOptions options) (u16 "wordbreak")) &&
              isString (get (localOptions options) (u16 "wordbreak")) && (m1 =? -1)%Z);
      [|assumption].
    destruct (Array_lastIndexOf_range
                (map VStr (firstn (Z.to_nat k) (string_iterator s)))
                (string_value (get (localOptions options) (u16 "wordbreak"))))
      as [->|H]; [left; reflexivity|].
    rewrite length_map in H. right. lia. }
  clearbody m2. intros H. inversion H as [Hv]. clear H Hv.
  assert (Hcut : exists j, j <= Z.to_nat k /\
            (if negb (m2 =? -1)%Z
             then slice0 (map VStr (string_iterator s)) (Int m2)
             else map VStr (firstn (Z.to_nat k) (string_iterator s)))
            = map VStr (firstn j (string_iterator s))).
  { destruct Hm2 as [->|Hm2].
    - exists (Z.to_nat k). split; [lia | reflexivity].
    - destruct (Z.eqb_spec m2 (-1)); [lia|]. simpl negb.
      exists (Z.to_nat m2). split; [lia|].
      rewrite slice0_nonneg by lia. apply firstn_map. }
  destruct Hcut as (j & Hj & ->). rewrite Array_join_strings.
  eexists. split; [reflexivity|]. split; [eexists; reflexivity|].
  pose proof (codepoint_count_app (join (firstn j (string_iterator s))) omission).
  assert (codepoint_count (join (firstn j (string_iterator s)))
          <= length (firstn j (string_iterator s))).
  { apply codepoint_count_concat. intros e He.
    apply (string_iterator_elements s). eapply In_firstn; eassumption. }
  assert (length (firstn j (string_iterator s)) <= j) by (rewrite length_firstn; lia).
  lia.
Qed.


(** A regular expression that matches the empty string at the start of the
    prefix keeps truncate in its loop for any fuel. *)
Lemma truncate_regex_never_ends (fuel : nat) (s : jsstring) (options : jsvalue)
  (length_ : number) (omission source : jsstring) (r : regexp) :
  validate (localOptions options) = None ->
  get (localOptions options) (u16 "length") = VNum length_ ->
  get (localOptions options) (u16 "omission") = VStr omission ->
  get (localOptions options) (u16 "wordbreakregex") = VStr source ->
  source <> [] ->
  number_leb (number_of_nat (codepoint_count s)) length_ = false ->
  RegExp_compile source = Some r ->
  RegExp_match r
    (firstSliceStringNormalised (map VStr (string_iterator s)) length_ omission) 0
    = Some 0 ->
  truncate fuel (VStr s) options
  = ([Call RegExp [VStr source; VStr (u16 "gu")]], OutOfFuel).
Proof.
  intros Hval Hlen Hom Hwbr Hsrc Hgt Hcomp Hmatch.
  truncate_on_string.
  rewrite Hval, Hlen, Hom, Hwbr. unfold array_from_spread. rewrite bind_ret.
  simpl number_value. simpl string_value. rewrite length_array_of_string, Hgt.
  assert (Ht : truthy (VStr source) = true) by (destruct source; [congruence | reflexivity]).
  rewrite Ht. simpl isString. simpl andb at 1.
  unfold regex_search, new_RegExp. rewrite Hcomp. unfold bind at 2.
  erewrite exec_loop_stuck; [reflexivity|].
  apply exec_match_here; [lia | eassumption].
Qed.

End Properties.

(** * Runs on the small runtime *)

Import Examples.

(** The first example of the documentation of truncate, and the second
    scenario of the specification. *)
Example truncate_to_13 :
  truncate (RT := Mini.runtime) 0 (text "1234567890123456789012345678901234567890")
    (obj [("length"%string, num 13); ("omission"%string, text "...")])
  = ([], Return (text "1234567890...")).
Proof. reflexivity. Qed.

Example truncate_at_space :
  truncate (RT := Mini.runtime) 0 (text "1234567890123456 , 789012345678901234567890")
    (obj [("length"%string, num 20); ("omission"%string, text "...");
          ("wordbreak"%string, text " ")])
  = ([], Return (text "1234567890123456...")).
Proof. reflexivity. Qed.

Example truncate_at_class :
  truncate (RT := Mini.runtime) 50 (text "1234567890123456 , 789012345678901234567890")
    (obj [("length"%string, num 20); ("omission"%string, text "...");
          ("wordbreakregex"%string, text "[\s\.%,:;\?_]")])
  = ([Call RegExp [text "[\s\.%,:;\?_]"; text "gu"]], Return (text "1234567890123456...")).
Proof. reflexivity. Qed.

(** C1.  truncate('abcdef', {length: 2}): the default omission '...' has
    three code points, one more than the length, so the prefix is cut at
    index -1 and the result 'abcde...' has eight code points: more than the
    length 2 and more than the six of the input. *)
Theorem truncate_omission_longer_than_length (fuel : nat) :
  truncate (RT := Mini.runtime) fuel (text "abcdef") (obj [("length"%string, num 2)])
    = ([], Return (text "abcde...")) /\
  ToIntegerOrInfinity (endslice (number_of_Z 2) (u16 "...")) = Int (-1) /\
  codepoint_count (u16 "abcdef") = 6 /\
  codepoint_count (u16 "abcde...") = 8.
Proof. split; [|split; [|split]]; reflexivity. Qed.

(** C8.  truncate('abc def ghi', {length: 9, wordbreakregex: ' *'}): the
    regular expression compiles, its first match in the prefix 'abc de' is
    the empty match at index 0, which leaves lastIndex at 0; the loop finds
    it again at every iteration and neither the loop nor truncate ends. *)
Theorem search_never_ends_on_empty_match (fuel : nat) :
  RegExp_compile (Runtime := Mini.runtime) (u16 " *")
    = Some [Mini.Star (Mini.Class false [(32, 32)%Z])] /\
  firstSliceStringNormalised (RT := Mini.runtime)
    (map VStr (string_iterator (u16 "abc def ghi"))) (number_of_Z 9) (u16 "...")
    = u16 "abc de" /\
  exec (RT := Mini.runtime) [Mini.Star (Mini.Class false [(32, 32)%Z])] (u16 "abc de") 0
    = Some (0, 0) /\
  exec_loop (RT := Mini.runtime) fuel [Mini.Star (Mini.Class false [(32, 32)%Z])]
    (u16 "abc de") 0 (-1) = None /\
  truncate (RT := Mini.runtime) fuel (text "abc def ghi")
    (obj [("length"%string, num 9); ("wordbreakregex"%string, text " *")])
    = ([Call RegExp [text " *"; text "gu"]], OutOfFuel).
Proof.
  split; [reflexivity|]. split; [reflexivity|]. split; [reflexivity|]. split.
  - apply exec_loop_stuck with (index := 0). reflexivity.
  - apply truncate_regex_never_ends
      with (length_ := number_of_Z 9) (omission := u16 "...")
           (r := [Mini.Star (Mini.Class false [(32, 32)%Z])]);
      try reflexivity.
    discriminate.
Qed.

(** *** C2 *)

(** The function bound as 'moment', called with its first argument
    undefined, calls the date library and returns what it returns. *)
Lemma moment_undefined_calls_library :
  exists r,
    In r (fst (registerWithJSONATA (RT := Mini.runtime) (DG := clock) accepting_host)) /\
    name r = u16 "moment" /\
    implementation r 0 [VUndefined] = ([Call momentjs [VUndefined]], Return moment_object) /\
    implementation r 0 [VUndefined] <> ([], Return VUndefined).
Proof.
  exists (Registration (u16 "moment") (fun _ args => moment (DG := clock) args)
            (u16 "<(sna)?(sa)?(sb)?b?:o>")).
  split; [|split; [|split]]; try reflexivity.
  - simpl. do 9 right. left. reflexivity.
  - discriminate.
Qed.

Lemma registered_functions_propagate_undefined_witness :
  (forall x : registration, (fun _ => None) x = @None error) /\
  In (Registration (u16 "mustache")
        (fun _ args => mustache (DG := clock) (argument 0 args) (argument 1 args))
        (u16 "<o?s?:s>"))
     (fst (registerWithJSONATA (RT := Mini.runtime) (DG := clock) accepting_host)) /\
  mustache (DG := clock) (argument 0 [VUndefined; text "{{name}}"])
    (argument 1 [VUndefined; text "{{name}}"]) = ([], Return VUndefined).
Proof.
  split; [reflexivity|]. split; [simpl; do 11 right; left; reflexivity|].
  apply (registered_functions_propagate_undefined (RT := Mini.runtime) (DG := clock)
           (fun _ => None)
           (Registration (u16 "mustache")
              (fun _ args => mustache (DG := clock) (argument 0 args) (argument 1 args))
              (u16 "<o?s?:s>"))
           0 [VUndefined; text "{{name}}"]);
    [reflexivity | simpl; do 11 right; left; reflexivity | discriminate | discriminate
    | reflexivity].
Defined.

(** *** C3 *)

(** A host that accepts every binding receives thirteen registerFunction
    calls, not nine to twelve. *)
Lemma thirteen_functions_bound :
  ~ (9 <= length (fst (registerWithJSONATA (RT := Mini.runtime) (DG := clock) accepting_host))
       <= 12).
Proof. simpl. lia. Qed.

(** register({registerFunction: 5}): the guard lets the object through and
    the first call fails, with an error that is not the guard's. *)
Lemma non_callable_registerFunction_passes_guard :
  registerWithJSONATA (RT := Mini.runtime) (DG := clock) (ExpressionNotCallable (num 5))
    = ([], Throw (TypeError (u16 "expression.registerFunction is not a function"))) /\
  registerWithJSONATA (RT := Mini.runtime) (DG := clock) (ExpressionNotCallable (num 5))
    <> registerWithJSONATA (RT := Mini.runtime) (DG := clock) ExpressionUndefined.
Proof. split; [reflexivity | discriminate]. Qed.

Lemma registerWithJSONATA_guard_and_bindings_witness :
  (forall x : registration, (fun _ => None) x = @None error) /\
  registerWithJSONATA (RT := Mini.runtime) (DG := clock) (ExpressionNotCallable VNull)
    = ([], Throw (TypeError (u16 "expression.registerFunction is not a function"))) /\
  snd (registerWithJSONATA (RT := Mini.runtime) (DG := clock) accepting_host) = Return tt /\
  length (fst (registerWithJSONATA (RT := Mini.runtime) (DG := clock) accepting_host)) = 13.
Proof.
  split; [reflexivity|].
  destruct (registerWithJSONATA_guard_and_bindings (RT := Mini.runtime) (DG := clock)
              (fun _ => None) VNull (fun _ => eq_refl))
    as (_ & _ & _ & H0 & H1 & _ & _ & H2).
  split; [exact (H0 eq_refl)|]. split; assumption.
Defined.

(** *** C4 *)



(** *** C5 *)

(** unshortenUuid(5) with a decoder that fails on a number: the decoder's
    own TypeError reaches the caller, no descriptive error replaces it. *)
Lemma decoder_error_escapes :
  delegate (Delegates := string_only_decoder) UuidEncoder_decode [text "base36"; num 5]
    = Throw (TypeError (u16 "str.toLowerCase is not a function")) /\
  unshortenUuid (DG := string_only_decoder) (num 5) VUndefined
    = ([Call UuidEncoder_decode [text "base36"; num 5]],
       Throw (TypeError (u16 "str.toLowerCase is not a function"))) /\
  decodeUuid (DG := string_only_decoder) (num 5) VUndefined
    = ([Call UuidEncoder_decode [text "base36"; num 5]],
       Throw (TypeError (u16 "str.toLowerCase is not a function"))).
Proof. split; [|split]; reflexivity. Qed.

Lemma delegate_failures_described_witness :
  is_undefined (text "not a url") = false /\
  parseUrl (DG := refusing) (text "not a url")
    = ([Call URL [text "not a url"]], Throw (Error (u16 "Invalid URL"))) /\
  parseUrl (DG := late_failures) (text "a:")
    = ([Call URL [text "a:"]; Call urlParse [text "a:"; VBool true]],
       Throw (Error (u16 "Invalid URL"))) /\
  parseUrl (DG := late_failures) (text "//")
    = ([Call URL [text "//"]; Call urlParse [text "//"; VBool true];
        Call JSON_parse_stringify [VUndefined]],
       Throw (Error (u16 "Invalid URL"))) /\
  languageInfo (RT := Mini.runtime) (DG := refusing) (text "not a url")
    = ([Call LanguageTag [text "not a url"]],
       Throw (Error (u16 "Invalid RFC5646 Tag. Value: not a url"))) /\
  unshortenUuid (DG := refusing) (text "not a url") (text "base7") = ([], Throw invalid_basex).
Proof.
  split; [reflexivity|].
  destruct (delegate_failures_described (RT := Mini.runtime) (DG := refusing)
              (text "not a url") eq_refl) as (_ & Hurl & _ & _ & Htag & Hbase).
  destruct (delegate_failures_described (RT := Mini.runtime) (DG := late_failures)
              (text "a:") eq_refl) as (_ & _ & Hparse & _).
  destruct (delegate_failures_described (RT := Mini.runtime) (DG := late_failures)
              (text "//") eq_refl) as (_ & _ & _ & Hjson & _).
  split; [|split; [|split; [|split]]].
  - apply (Hurl (TypeError (u16 "Invalid URL"))). reflexivity.
  - apply (Hparse (obj [("href"%string, text "a:")]) (TypeError (u16 "Cannot parse a:")));
      reflexivity.
  - apply (Hjson (obj [("href"%string, text "//")]) VUndefined
             (Err (u16 "SyntaxError") (u16 "Unexpected token u in JSON at position 0")));
      reflexivity.
  - apply (Htag (obj [("invalid"%string, VBool true)])); reflexivity.
  - apply (Hbase (text "base7")). reflexivity.
Defined.

(** *** C6 *)

(** truncate('abc', {length: 10, omission: 5}): the three code points are
    within the merged length, yet the string is not returned: the check of
    omission comes before the comparison and fails. *)
Lemma invalid_omission_within_length_rejected :
  get (localOptions (obj [("length"%string, num 10); ("omission"%string, num 5)]))
    (u16 "length") = num 10 /\
  number_leb (number_of_nat (codepoint_count (u16 "abc"))) (number_of_Z 10) = true /\
  truncate (RT := Mini.runtime) 0 (text "abc")
    (obj [("length"%string, num 10); ("omission"%string, num 5)])
    = ([], Throw (TypeError (u16 "Expected a string. Received options.omission=5 Type: number"))).
Proof. split; [|split]; reflexivity. Qed.

Lemma truncate_within_length_unchanged_witness :
  validate (RT := Mini.runtime) (localOptions (obj [("length"%string, num 5)])) = None /\
  get (localOptions (obj [("length"%string, num 5)])) (u16 "length") = num 5 /\
  number_leb (number_of_nat (codepoint_count (u16 "hello"))) (number_of_Z 5) = true /\
  truncate (RT := Mini.runtime) 0 (text "hello") (obj [("length"%string, num 5)])
    = ([], Return (text "hello")).
Proof.
  split; [reflexivity|]. split; [reflexivity|]. split; [reflexivity|].
  apply (truncate_within_length_unchanged (RT := Mini.runtime) 0 (u16 "hello")
           (obj [("length"%string, num 5)]) (length_ := number_of_Z 5));
    reflexivity.
Defined.

(** *** C7 *)








(** *** C10 *)

Lemma unshortenUuid_guards_only_base_witness :
  is_undefined (text "1m5otdkthiyq143crwujacdqg") = false /\
  unshortenUuid (DG := string_only_decoder) (text "1m5otdkthiyq143crwujacdqg") VUndefined
    = ([Call UuidEncoder_decode [text "base36"; text "1m5otdkthiyq143crwujacdqg"]],
       Return (text "00000000-0000-0000-0000-000000000000")) /\
  unshortenUuid (DG := string_only_decoder) (text "1m5otdkthiyq143crwujacdqg") (text "base7")
    = ([], Throw (Error (u16 "Invalid basex. Valid values: base2,base10,base16,base32,base36,base58,base62,base64,base64url"))).
Proof.
  split; [reflexivity|]. split.
  - apply (unshortenUuid_guards_only_base (DG := string_only_decoder)
             (text "1m5otdkthiyq143crwujacdqg") VUndefined eq_refl). reflexivity.
  - apply (unshortenUuid_guards_only_base (DG := string_only_decoder)
             (text "1m5otdkthiyq143crwujacdqg") (text "base7") eq_refl). reflexivity.
Defined.

(** * Further properties *)

Section FurtherProperties.

Context {RT : Runtime} {DG : Delegates}.

Local Open Scope js_scope.

(** ** Merging options over defaults *)

Lemma get_set_same (o : object) (k : jsstring) (v : jsvalue) : get (set o k v) k = v.
Proof.
  induction o as [|[k' v'] o IH]; simpl.
  - now rewrite jsstring_eqb_refl.
  - destruct (jsstring_eqb k' k) eqn:E; simpl.
    + now rewrite jsstring_eqb_refl.
    + now rewrite E.
Qed.

Lemma get_set_other (o : object) (k k2 : jsstring) (v : jsvalue) :
  jsstring_eqb k k2 = false -> get (set o k v) k2 = get o k2.
Proof.
  intros Hk. induction o as [|[k' v'] o IH]; simpl.
  - now rewrite Hk.
  - destruct (jsstring_eqb k' k) eqn:E; simpl.
    + apply jsstring_eqb_eq in E. subst k'. now rewrite Hk.
    + destruct (jsstring_eqb k' k2); [reflexivity | exact IH].
Qed.

Lemma has_key_in (o : object) (k : jsstring) :
  has_key o k = true -> In k (map fst o).
Proof.
  unfold has_key. intros H. apply existsb_exists in H as ([k' v] & Hin & Heq).
  apply jsstring_eqb_eq in Heq. simpl in Heq. subst k'.
  apply in_map_iff. exists (k, v). split; [reflexivity | assumption].
Qed.

Lemma has_key_false_get (o : object) (k : jsstring) :
  has_key o k = false -> get o k = VUndefined.
Proof.
  induction o as [|[k' v] o IH]; simpl; [reflexivity|].
  destruct (jsstring_eqb k' k); simpl; [discriminate | exact IH].
Qed.

Lemma get_fold_set (o : object) :
  forall base k,
    NoDup (map fst o) ->
    get (fold_left (fun acc kv => set acc (fst kv) (snd kv)) o base) k
    = if has_key o k then get o k else get base k.
Proof.
  induction o as [|[k1 v1] o IH]; intros base k Hnd; [reflexivity|].
  simpl in Hnd. inversion Hnd as [|? ? Hnotin Hnd']; subst.
  simpl fold_left. rewrite IH by assumption. simpl.
  destruct (jsstring_eqb k1 k) eqn:E; simpl.
  - apply jsstring_eqb_eq in E. subst k1.
    destruct (has_key o k) eqn:Hk.
    + apply has_key_in in Hk. contradiction.
    + apply get_set_same.
  - destruct (has_key o k); [reflexivity|]. now apply get_set_other.
Qed.

(** X1.  In [{...defaults, ...options}] with [options] an object, a key the
    caller gives has the caller's value, whatever it is, and a key the
    caller does not give keeps the default. *)
Theorem options_override_defaults (defaults o : object) (k : jsstring) :
  NoDup (map fst o) ->
  get (spread defaults (VObj o)) k = if has_key o k then get o k else get defaults k.
Proof. intros H. unfold spread. simpl own_enumerable. now apply get_fold_set. Qed.

(** X2.  An option the caller sets to undefined is not replaced by its
    default: truncate with [length: undefined] fails the check of length,
    for every defined value and whatever else the options hold. *)
Theorem explicit_undefined_length_rejected (fuel : nat) (value : jsvalue) (o : object) :
  is_undefined value = false ->
  NoDup (map fst o) ->
  has_key o (u16 "length") = true ->
  get o (u16 "length") = VUndefined ->
  truncate fuel value (VObj o)
  = ([], Throw (TypeError
                  (u16 "Expected a number. Received options.length=undefined Type: undefined"))).
Proof.
  intros Hv Hnd Hk Hu. unfold truncate. rewrite Hv.
  assert (Hlen : get (localOptions (VObj o)) (u16 "length") = VUndefined).
  { unfold localOptions, spread. simpl own_enumerable.
    rewrite get_fold_set by assumption. now rewrite Hk. }
  unfold validate. rewrite Hlen. reflexivity.
Qed.

(** ** truncate beyond the length, step by step *)

(** What is left of truncate once the checks have passed and the string is
    longer than the length. *)
Lemma truncate_beyond_length (fuel : nat) (s : jsstring) (options : jsvalue)
  (length_ : number) (omission : jsstring) :
  validate (localOptions options) = None ->
  get (localOptions options) (u16 "length") = VNum length_ ->
  get (localOptions options) (u16 "omission") = VStr omission ->
  number_leb (number_of_nat (codepoint_count s)) length_ = false ->
  truncate fuel (VStr s) options =
    bind
      (if truthy (get (localOptions options) (u16 "wordbreakregex"))
          && isString (get (localOptions options) (u16 "wordbreakregex"))
       then regex_search fuel
              (string_value (get (localOptions options) (u16 "wordbreakregex")))
              (firstSliceStringNormalised (map VStr (string_iterator s)) length_ omission)
       else ret (-1)%Z)
      (fun lastMatch =>
         ret (VStr (Array_join
                      (slice_at_word_break (map VStr (string_iterator s))
                         (firstSlice (map VStr (string_iterator s)) length_ omission)
                         (get (localOptions options) (u16 "wordbreak")) lastMatch) []
                    ++ omission))).
Proof.
  intros Hval Hlen Hom Hgt. unfold truncate. simpl is_undefined. cbv iota.
  rewrite Hval, Hlen, Hom. unfold array_from_spread. rewrite bind_ret.
  simpl number_value. simpl string_value. rewrite length_array_of_string, Hgt.
  reflexivity.
Qed.

Lemma validate_without_word_breaks (options : jsvalue) (length_ : number)
  (omission : jsstring) :
  get (localOptions options) (u16 "length") = VNum length_ ->
  get (localOptions options) (u16 "omission") = VStr omission ->
  (truthy (get (localOptions options) (u16 "wordbreak")) = true ->
   is_string (get (localOptions options) (u16 "wordbreak")) = true) ->
  (truthy (get (localOptions options) (u16 "wordbreakregex")) = true ->
   is_string (get (localOptions options) (u16 "wordbreakregex")) = true) ->
  validate (localOptions options) = None.
Proof.
  intros Hlen Hom Hwb Hwbr. apply validate_passes. rewrite Hlen, Hom.
  repeat split; assumption.
Qed.

Lemma slice0_map_firstn (A B : Type) (f : A -> B) (l : list A) (x : integer_or_infinity) :
  slice0 (map f l) x = map f (firstn (slice_final (length l) x) l).
Proof. unfold slice0. rewrite length_map. apply firstn_map. Qed.

Lemma slice0_map (A B : Type) (f : A -> B) (l : list A) (x : integer_or_infinity) :
  slice0 (map f l) x = map f (slice0 l x).
Proof. apply slice0_map_firstn. Qed.

(** [[...s].join('')] is [s]. *)
Lemma join_string_iterator (s : jsstring) : join (string_iterator s) = s.
Proof.
  unfold join.
  induction s as [| h | h l t E IH | h l t E IH] using string_iterator_induction.
  - reflexivity.
  - reflexivity.
  - rewrite string_iterator_pair by assumption. cbn [concat app]. now rewrite IH.
  - rewrite string_iterator_single by assumption. cbn [concat app]. now rewrite IH.
Qed.

Lemma replace_prefix_placeholders (s : jsstring) :
  forall j,
    replace_surrogate_pairs (concat (firstn j (string_iterator s)))
    = map placeholder_unit (firstn j (string_iterator s)).
Proof.
  induction s as [| h | h l t E IH | h l t E IH] using string_iterator_induction;
    intros [|j]; try reflexivity.
  - destruct j; reflexivity.
  - rewrite string_iterator_pair by assumption.
    change (concat (firstn (S j) ([h; l] :: string_iterator t)))
      with (h :: l :: concat (firstn j (string_iterator t))).
    rewrite replace_surrogate_pairs_pair by assumption.
    cbn [firstn map placeholder_unit]. now rewrite IH.
  - rewrite string_iterator_single by assumption.
    change (concat (firstn (S j) ([h] :: string_iterator (l :: t))))
      with (h :: concat (firstn j (string_iterator (l :: t)))).
    specialize (IH j).
    destruct (prefix_head (l :: t) j) as [Hnil|(x & rest & t' & Hcons & Hhead)].
    + rewrite Hnil in *. cbn [firstn map placeholder_unit].
      rewrite <- IH. reflexivity.
    + inversion Hhead; subst x t'. rewrite Hcons in *.
      rewrite replace_surrogate_pairs_single by assumption.
      cbn [firstn map placeholder_unit]. now rewrite IH.
Qed.

(** X3.  The prefix the regular expression runs on has one code unit for
    each code point of the candidate prefix, the code point itself or
    U+200D for a surrogate pair: an index in it is the index of the same
    code point in the array the cut is made on. *)
Theorem normalised_prefix_aligned (s : jsstring) (length_ : number) (omission : jsstring) :
  firstSlice (map VStr (string_iterator s)) length_ omission
  = map VStr (slice0 (string_iterator s) (ToIntegerOrInfinity (endslice length_ omission))) /\
  firstSliceStringNormalised (map VStr (string_iterator s)) length_ omission
  = map placeholder_unit
      (slice0 (string_iterator s) (ToIntegerOrInfinity (endslice length_ omission))).
Proof.
  split.
  - unfold firstSlice. apply slice0_map.
  - unfold firstSliceStringNormalised, firstSlice. rewrite slice0_map, Array_join_strings.
    unfold slice0, join. apply replace_prefix_placeholders.
Qed.

Lemma slice_at_word_break_firstn (l : list jsstring) (x : integer_or_infinity)
  (wordbreak : jsvalue) (lastMatch : Z) :
  exists j,
    slice_at_word_break (map VStr l) (slice0 (map VStr l) x) wordbreak lastMatch
    = map VStr (firstn j l).
Proof.
  unfold slice_at_word_break.
  match goal with |- context [negb ?b] => destruct (negb b) end;
    rewrite slice0_map_firstn; eexists; reflexivity.
Qed.

(** X4.  What truncate returns for a string longer than the length is a
    prefix of the string cut between two code points, followed by the
    omission string: a surrogate pair of the input is never split. *)
Theorem truncate_cuts_at_code_point (fuel : nat) (s : jsstring) (options : jsvalue)
  (length_ : number) (omission : jsstring) (v : jsvalue) :
  validate (localOptions options) = None ->
  get (localOptions options) (u16 "length") = VNum length_ ->
  get (localOptions options) (u16 "omission") = VStr omission ->
  number_leb (number_of_nat (codepoint_count s)) length_ = false ->
  result (truncate fuel (VStr s) options) = Return v ->
  exists j,
    v = VStr (join (firstn j (string_iterator s)) ++ omission) /\
    s = join (firstn j (string_iterator s)) ++ join (skipn j (string_iterator s)).
Proof.
  intros Hval Hlen Hom Hgt.
  rewrite (truncate_beyond_length fuel s options Hval Hlen Hom Hgt).
  match goal with |- result (bind ?m _) = _ -> _ => destruct m as [log [lm|e|]] end;
    simpl; try discriminate.
  intros H. inversion H as [Hv]. clear H Hv.
  destruct (slice_at_word_break_firstn (string_iterator s)
              (ToIntegerOrInfinity (endslice length_ omission))
              (get (localOptions options) (u16 "wordbreak")) lm) as [j Hj].
  exists j. unfold firstSlice. rewrite Hj, Array_join_strings. split; [reflexivity|].
  unfold join. rewrite <- concat_app, firstn_skipn. symmetry. apply join_string_iterator.
Qed.

(** ** The literal wordbreak *)

Lemma Array_lastIndexOf_from_absent (a : list jsvalue) (x : jsstring) :
  (forall y, In y a -> strict_equals_string y x = false) ->
  forall i found, Array_lastIndexOf_from a x i found = found.
Proof.
  induction a as [|y a IH]; intros H i found; [reflexivity|].
  simpl. rewrite (H y) by (left; reflexivity).
  apply IH. intros y' Hy'. apply H. right. assumption.
Qed.

Lemma Array_lastIndexOf_from_at (a : list jsvalue) (x : jsstring) :
  forall i y base found,
    nth_error a i = Some y ->
    strict_equals_string y x = true ->
    (forall j y', i < j -> nth_error a j = Some y' -> strict_equals_string y' x = false) ->
    Array_lastIndexOf_from a x base found = (base + Z.of_nat i)%Z.
Proof.
  induction a as [|z a IH]; intros [|i] y base found Hnth Heq Hlater;
    simpl in Hnth; try discriminate.
  - inversion Hnth; subst z. simpl. rewrite Heq.
    rewrite Array_lastIndexOf_from_absent; [lia|].
    intros y' Hy'. apply In_nth_error in Hy' as [j Hj].
    apply (Hlater (S j) y'); [lia | exact Hj].
  - simpl Array_lastIndexOf_from.
    rewrite (IH i y (base + 1)%Z _ Hnth Heq); [lia|].
    intros j y' Hij Hj. apply (Hlater (S j) y'); [lia | exact Hj].
Qed.

Lemma strict_equals_string_VStr (e x : jsstring) :
  strict_equals_string (VStr e) x = true <-> e = x.
Proof. apply jsstring_eqb_eq. Qed.

Lemma truthy_VStr (w : jsstring) : truthy (VStr w) = negb (match w with [] => true | _ => false end).
Proof. destruct w; reflexivity. Qed.

(** X5.  The literal wordbreak is compared with the code points of the
    prefix one by one, so a wordbreak that is not exactly one code point
    (', ' for instance) is never found: the cut is where it is without any
    wordbreak. *)
Theorem long_wordbreak_never_found (fuel : nat) (s : jsstring) (options : jsvalue)
  (length_ : number) (omission wordbreak : jsstring) :
  get (localOptions options) (u16 "length") = VNum length_ ->
  get (localOptions options) (u16 "omission") = VStr omission ->
  truthy (get (localOptions options) (u16 "wordbreakregex")) = false ->
  get (localOptions options) (u16 "wordbreak") = VStr wordbreak ->
  codepoint_count wordbreak <> 1 ->
  number_leb (number_of_nat (codepoint_count s)) length_ = false ->
  truncate fuel (VStr s) options
  = ([], Return (VStr (join (slice0 (string_iterator s)
                               (ToIntegerOrInfinity (endslice length_ omission)))
                       ++ omission))).
Proof.
  intros Hlen Hom Hwbr Hwb Hcount Hgt.
  assert (Hval : validate (localOptions options) = None).
  { apply (validate_without_word_breaks options Hlen Hom).
    - rewrite Hwb. reflexivity.
    - rewrite Hwbr. discriminate. }
  rewrite (truncate_beyond_length fuel s options Hval Hlen Hom Hgt).
  rewrite Hwbr. simpl andb. cbv iota. rewrite bind_ret, Hwb.
  unfold slice_at_word_break, firstSlice. rewrite slice0_map.
  assert (Habsent : Array_lastIndexOf
                      (map VStr (slice0 (string_iterator s)
                                   (ToIntegerOrInfinity (endslice length_ omission))))
                      wordbreak = (-1)%Z).
  { apply Array_lastIndexOf_from_absent. intros y Hy.
    apply in_map_iff in Hy as (e & <- & He).
    destruct (strict_equals_string (VStr e) wordbreak) eqn:E; [|reflexivity].
    apply strict_equals_string_VStr in E. subst e.
    apply In_firstn in He. apply string_iterator_elements in He. contradiction. }
  simpl string_value.
  replace (if truthy (VStr wordbreak) && isString (VStr wordbreak) && (-1 =? -1)%Z
           then Array_lastIndexOf
                  (map VStr (slice0 (string_iterator s)
                               (ToIntegerOrInfinity (endslice length_ omission))))
                  wordbreak
           else (-1)%Z) with (-1)%Z
    by (rewrite Habsent; destruct (truthy (VStr wordbreak) && isString (VStr wordbreak));
        reflexivity).
  simpl negb. cbv iota. rewrite Array_join_strings. reflexivity.
Qed.

(** X6.  With a wordbreak of one code point and no regular expression, the
    cut is just before the last occurrence of the wordbreak among the code
    points of the candidate prefix: the wordbreak and what follows it are
    dropped. *)
Theorem wordbreak_cut_at_last_occurrence (fuel : nat) (s : jsstring) (options : jsvalue)
  (length_ : number) (omission wordbreak : jsstring) (i : nat) :
  get (localOptions options) (u16 "length") = VNum length_ ->
  get (localOptions options) (u16 "omission") = VStr omission ->
  truthy (get (localOptions options) (u16 "wordbreakregex")) = false ->
  get (localOptions options) (u16 "wordbreak") = VStr wordbreak ->
  number_leb (number_of_nat (codepoint_count s)) length_ = false ->
  nth_error (slice0 (string_iterator s) (ToIntegerOrInfinity (endslice length_ omission))) i
    = Some wordbreak ->
  (forall j, i < j ->
     nth_error (slice0 (string_iterator s) (ToIntegerOrInfinity (endslice length_ omission))) j
     <> Some wordbreak) ->
  truncate fuel (VStr s) options
  = ([], Return (VStr (join (firstn i (string_iterator s)) ++ omission))).
Proof.
  intros Hlen Hom Hwbr Hwb Hgt Hnth Hlast.
  assert (Hval : validate (localOptions options) = None).
  { apply (validate_without_word_breaks options Hlen Hom).
    - rewrite Hwb. reflexivity.
    - rewrite Hwbr. discriminate. }
  assert (Hone : codepoint_count wordbreak = 1).
  { apply (string_iterator_elements s). apply nth_error_In in Hnth.
    eapply In_firstn. exact Hnth. }
  assert (Htruthy : truthy (VStr wordbreak) = true).
  { destruct wordbreak; [discriminate Hone | reflexivity]. }
  rewrite (truncate_beyond_length fuel s options Hval Hlen Hom Hgt).
  rewrite Hwbr. simpl andb. cbv iota. rewrite bind_ret, Hwb.
  unfold slice_at_word_break, firstSlice. rewrite slice0_map.
  rewrite Htruthy. simpl isString. simpl andb. simpl string_value. cbv iota.
  assert (Hfound : Array_lastIndexOf
                     (map VStr (slice0 (string_iterator s)
                                  (ToIntegerOrInfinity (endslice length_ omission))))
                     wordbreak = Z.of_nat i).
  { unfold Array_lastIndexOf.
    rewrite Array_lastIndexOf_from_at with (i := i) (y := VStr wordbreak); [lia | | |].
    - apply map_nth_error. exact Hnth.
    - apply strict_equals_string_VStr. reflexivity.
    - intros j y' Hij Hj. rewrite nth_error_map in Hj.
      destruct (nth_error (slice0 (string_iterator s)
                             (ToIntegerOrInfinity (endslice length_ omission))) j)
        as [e|] eqn:He; simpl in Hj; [|discriminate].
      inversion Hj; subst y'.
      destruct (strict_equals_string (VStr e) wordbreak) eqn:E; [|reflexivity].
      apply strict_equals_string_VStr in E. subst e. exfalso.
      apply (Hlast j Hij). exact He. }
  rewrite Hfound.
  assert (Hne : (Z.of_nat i =? -1)%Z = false) by (apply Z.eqb_neq; lia).
  rewrite Hne. simpl negb. cbv iota.
  rewrite slice0_nonneg by lia. rewrite Nat2Z.id, firstn_map, Array_join_strings.
  reflexivity.
Qed.

(** ** The regular expression, when it fails or finds nothing *)

Lemma truthy_nonempty_string (source : jsstring) :
  source <> [] -> truthy (VStr source) = true.
Proof. destruct source; [congruence | reflexivity]. Qed.

(** X7.  For a string longer than the length and options that pass the
    four checks, a wordbreakregex that is not empty and does not compile
    makes truncate fail with Error('Error Processing workdbreakregex.')
    after the one RegExp call, whatever the wordbreak option is: the
    literal wordbreak is not tried instead. *)
Theorem invalid_regex_reported (fuel : nat) (s : jsstring) (options : jsvalue)
  (length_ : number) (omission source : jsstring) :
  validate (localOptions options) = None ->
  get (localOptions options) (u16 "length") = VNum length_ ->
  get (localOptions options) (u16 "omission") = VStr omission ->
  get (localOptions options) (u16 "wordbreakregex") = VStr source ->
  source <> [] ->
  number_leb (number_of_nat (codepoint_count s)) length_ = false ->
  RegExp_compile source = None ->
  truncate fuel (VStr s) options
  = ([Call RegExp [VStr source; VStr (u16 "gu")]],
     Throw (Error (u16 "Error Processing workdbreakregex."))).
Proof.
  intros Hval Hlen Hom Hwbr Hsrc Hgt Hcomp.
  rewrite (truncate_beyond_length fuel s options Hval Hlen Hom Hgt).
  rewrite Hwbr, (truthy_nonempty_string Hsrc). simpl isString. simpl andb. cbv iota.
  simpl string_value. unfold regex_search, new_RegExp. rewrite Hcomp. reflexivity.
Qed.

Lemma exec_loop_no_match (fuel : nat) (r : regexp) (s : jsstring) (lastIndex : nat)
  (lastMatch : Z) :
  exec r s lastIndex = None -> exec_loop (S fuel) r s lastIndex lastMatch = Some lastMatch.
Proof. intros H. cbn [exec_loop]. now rewrite H. Qed.

(** X8.  A wordbreakregex that compiles and finds nothing in the prefix
    leaves truncate with the result it has without any wordbreakregex, the
    literal wordbreak included; one iteration of the search is enough. *)
Theorem regex_without_match_falls_back (fuel fuel' : nat) (s : jsstring)
  (options options' : jsvalue) (length_ : number) (omission source : jsstring)
  (r : regexp) :
  validate (localOptions options) = None ->
  get (localOptions options) (u16 "length") = VNum length_ ->
  get (localOptions options) (u16 "omission") = VStr omission ->
  get (localOptions options) (u16 "wordbreakregex") = VStr source ->
  source <> [] ->
  number_leb (number_of_nat (codepoint_count s)) length_ = false ->
  RegExp_compile source = Some r ->
  exec r (firstSliceStringNormalised (map VStr (string_iterator s)) length_ omission) 0
    = None ->
  get (localOptions options') (u16 "length") = VNum length_ ->
  get (localOptions options') (u16 "omission") = VStr omission ->
  get (localOptions options') (u16 "wordbreak") = get (localOptions options) (u16 "wordbreak") ->
  truthy (get (localOptions options') (u16 "wordbreakregex")) = false ->
  calls (truncate fuel' (VStr s) options') = [] /\
  truncate (S fuel) (VStr s) options
  = ([Call RegExp [VStr source; VStr (u16 "gu")]],
     result (truncate fuel' (VStr s) options')).
Proof.
  intros Hval Hlen Hom Hwbr Hsrc Hgt Hcomp Hnone Hlen' Hom' Hwb' Hwbr'.
  assert (Hval' : validate (localOptions options') = None).
  { apply validate_passes in Hval as (_ & _ & Hwb & _).
    apply (validate_without_word_breaks options' Hlen' Hom').
    - rewrite Hwb'. exact Hwb.
    - rewrite Hwbr'. discriminate. }
  rewrite (truncate_beyond_length fuel' s options' Hval' Hlen' Hom' Hgt).
  rewrite (truncate_beyond_length (S fuel) s options Hval Hlen Hom Hgt).
  rewrite Hwbr', Hwb'. simpl andb. cbv iota. rewrite bind_ret.
  rewrite Hwbr, (truthy_nonempty_string Hsrc). simpl isString. simpl andb. cbv iota.
  simpl string_value. unfold regex_search, new_RegExp. rewrite Hcomp.
  unfold bind at 2. rewrite (exec_loop_no_match fuel r _ 0 (-1)%Z Hnone).
  split; reflexivity.
Qed.

(** X9.  When every match of the regular expression in the prefix consumes
    at least one code unit, the search ends within [length + 2] iterations;
    the index it leaves is that of the last of the successive matches, -1
    when there is none, never beyond the prefix, and after that match the
    regular expression finds nothing more. *)
Theorem search_ends_when_matches_consume (fuel : nat) (r : regexp) (s : jsstring) :
  (forall i e, RegExp_match r s i = Some e -> i < e) ->
  length s + 2 <= fuel ->
  exists m,
    exec_loop fuel r s 0 (-1) = Some m /\
    m = last_match_index (successive_matches fuel r s 0) /\
    (-1 <= m <= Z.of_nat (length s))%Z /\
    exec r s (last (map snd (successive_matches fuel r s 0)) 0) = None.
Proof.
  intros Hprogress Hfuel.
  assert (Hm : exists m, exec_loop fuel r s 0 (-1) = Some m)
    by (apply exec_loop_terminates; [assumption | lia]).
  destruct Hm as [m Hm]. exists m. split; [assumption|].
  pose proof (exec_loop_range r s fuel 0 (-1)%Z Hm) as Hrange.
  apply exec_loop_last in Hm as [H1 H2].
  split; [exact H1|]. split; [lia | exact H2].
Qed.

(** ** The plain cut *)

Lemma string_iterator_prefix (s : jsstring) :
  forall j,
    string_iterator (concat (firstn j (string_iterator s))) = firstn j (string_iterator s).
Proof.
  induction s as [| h | h l t E IH | h l t E IH] using string_iterator_induction;
    intros [|j]; try reflexivity.
  - destruct j; reflexivity.
  - rewrite string_iterator_pair by assumption.
    change (concat (firstn (S j) ([h; l] :: string_iterator t)))
      with (h :: l :: concat (firstn j (string_iterator t))).
    rewrite string_iterator_pair by assumption.
    cbn [firstn]. now rewrite IH.
  - rewrite string_iterator_single by assumption.
    change (concat (firstn (S j) ([h] :: string_iterator (l :: t))))
      with (h :: concat (firstn j (string_iterator (l :: t)))).
    specialize (IH j).
    destruct (prefix_head (l :: t) j) as [Hnil|(x & rest & t' & Hcons & Hhead)].
    + rewrite Hnil in *. cbn [firstn]. rewrite <- IH. reflexivity.
    + inversion Hhead; subst x t'. rewrite Hcons in *.
      rewrite string_iterator_single by assumption.
      cbn [firstn]. now rewrite IH.
Qed.

Lemma codepoint_count_app_exact (a b : jsstring) :
  starts_code_point b = true ->
  codepoint_count (a ++ b) = codepoint_count a + codepoint_count b.
Proof.
  intros Hb.
  induction a as [| h | h l t E IH | h l t E IH] using string_iterator_induction.
  - reflexivity.
  - change ([h] ++ b) with (h :: b). destruct b as [|c b]; [reflexivity|].
    simpl in Hb. apply negb_true_iff in Hb.
    unfold codepoint_count. rewrite string_iterator_single
      by (rewrite Hb; apply andb_false_r).
    reflexivity.
  - change ((h :: l :: t) ++ b) with (h :: l :: t ++ b).
    unfold codepoint_count in *. rewrite !string_iterator_pair by assumption.
    cbn [length]. lia.
  - change ((h :: l :: t) ++ b) with (h :: l :: t ++ b).
    change ((l :: t) ++ b) with (l :: t ++ b) in IH.
    unfold codepoint_count in *. rewrite !string_iterator_single by assumption.
    cbn [length]. lia.
Qed.

(** X10.  For a string longer than the length, a numeric length and a
    string omission, with wordbreak and wordbreakregex absent or falsy:
    when the end index [length - count(omission)] is a position in the
    string and the omission string does not begin with a low surrogate,
    truncate returns the code points before that index followed by the
    omission string, and the result has exactly end index plus
    count(omission) code points. *)
Theorem plain_cut_code_point_count (fuel : nat) (s : jsstring) (options : jsvalue)
  (length_ : number) (omission : jsstring) (k : nat) :
  get (localOptions options) (u16 "length") = VNum length_ ->
  get (localOptions options) (u16 "omission") = VStr omission ->
  truthy (get (localOptions options) (u16 "wordbreakregex")) = false ->
  truthy (get (localOptions options) (u16 "wordbreak")) = false ->
  number_leb (number_of_nat (codepoint_count s)) length_ = false ->
  ToIntegerOrInfinity (endslice length_ omission) = Int (Z.of_nat k) ->
  k <= codepoint_count s ->
  starts_code_point omission = true ->
  truncate fuel (VStr s) options
  = ([], Return (VStr (join (firstn k (string_iterator s)) ++ omission))) /\
  codepoint_count (join (firstn k (string_iterator s)) ++ omission)
  = k + codepoint_count omission.
Proof.
  intros Hlen Hom Hwbr Hwb Hgt Hk Hle Hstart.
  assert (Hval : validate (localOptions options) = None).
  { apply (validate_without_word_breaks options Hlen Hom).
    - rewrite Hwb. discriminate.
    - rewrite Hwbr. discriminate. }
  split.
  - rewrite (truncate_beyond_length fuel s options Hval Hlen Hom Hgt).
    rewrite Hwbr. simpl andb. cbv iota. rewrite bind_ret.
    unfold slice_at_word_break. rewrite Hwb. simpl andb. cbv iota.
    simpl negb. cbv iota. unfold firstSlice. rewrite Hk.
    rewrite slice0_nonneg by lia. rewrite Nat2Z.id, firstn_map, Array_join_strings.
    reflexivity.
  - rewrite codepoint_count_app_exact by assumption.
    unfold codepoint_count at 1. unfold join. rewrite string_iterator_prefix.
    rewrite length_firstn. unfold codepoint_count in Hle. lia.
Qed.

(** ** htmltotext *)

Lemma trim_start_whitespace (w x : jsstring) :
  forallb is_whitespace w = true -> trim_start (w ++ x) = trim_start x.
Proof.
  induction w as [|c w IH]; intros H; [reflexivity|].
  cbn [forallb] in H. apply andb_true_iff in H as [Hc Hw].
  cbn [app trim_start]. unfold is_whitespace in Hc. rewrite Hc. now apply IH.
Qed.

Lemma trim_start_empty (s : jsstring) :
  trim_start s = [] -> forallb is_whitespace s = true.
Proof.
  induction s as [|c s IH]; [reflexivity|]. cbn [trim_start forallb]. unfold is_whitespace.
  destruct (in_ranges c whitespace); [exact IH | discriminate].
Qed.

Lemma trim_start_keeps_tail (s x : jsstring) :
  trim_start s <> [] -> trim_start (s ++ x) = trim_start s ++ x.
Proof.
  induction s as [|c s IH]; intros H; [contradiction|].
  cbn [app trim_start] in *. destruct (in_ranges c whitespace); [now apply IH | reflexivity].
Qed.

Lemma forallb_rev (A : Type) (f : A -> bool) (l : list A) :
  forallb f l = true -> forallb f (rev l) = true.
Proof.
  rewrite !forallb_forall. intros H x Hx. apply H. now apply in_rev.
Qed.

Lemma trim_surrounded (w1 s w2 : jsstring) :
  forallb is_whitespace w1 = true ->
  forallb is_whitespace w2 = true ->
  trim (w1 ++ s ++ w2) = trim s.
Proof.
  intros H1 H2. unfold trim. rewrite trim_start_whitespace by assumption.
  destruct (trim_start s) as [|c rest] eqn:E.
  - apply trim_start_empty in E.
    replace (trim_start (s ++ w2)) with (@nil Z); [reflexivity|].
    symmetry. rewrite <- (app_nil_r (s ++ w2)). rewrite trim_start_whitespace; [reflexivity|].
    rewrite forallb_app, E, H2. reflexivity.
  - rewrite trim_start_keeps_tail by (rewrite E; discriminate).
    rewrite E, rev_app_distr. rewrite trim_start_whitespace by now apply forallb_rev.
    reflexivity.
Qed.

(** X11.  htmltotext trims the value before it converts it: white space
    around the value changes neither the call to the converter nor the
    result. *)
Theorem htmltotext_ignores_surrounding_whitespace (w1 s w2 : jsstring) (options : jsvalue) :
  forallb is_whitespace w1 = true ->
  forallb is_whitespace w2 = true ->
  htmltotext (VStr (w1 ++ s ++ w2)) options = htmltotext (VStr s) options.
Proof.
  intros H1 H2. unfold htmltotext. simpl is_undefined. cbv iota.
  now rewrite trim_surrounded.
Qed.

(** X12.  htmltotext never hands a value that is not a string to the
    converter: for such a value no call is made, and when the value is
    defined the engine's TypeError for the missing trim method is
    thrown. *)
Theorem htmltotext_converts_strings_only (value options : jsvalue) :
  is_string value = false ->
  calls (htmltotext value options) = [] /\
  (is_undefined value = false -> exists e, result (htmltotext value options) = Throw e).
Proof.
  intros H. unfold htmltotext.
  destruct value; try discriminate H; simpl; split; try reflexivity;
    intros Hu; try discriminate Hu; eexists; reflexivity.
Qed.

(** ** shortenUuid and the bases *)

(** X13.  shortenUuid calls the encoder only for a value the validator
    accepted and a base among the nine, and then with the base and the
    value as they are; a value the validator rejects is reported as
    'Invalid UUID' whatever the base is. *)
Theorem shortenUuid_encodes_validated_only (value base : jsvalue) :
  (forall c, In c (calls (shortenUuid value base)) ->
     call_callee c = UuidEncoder_encode ->
     (exists ok, delegate uuidvalidate [value] = Return ok /\ truthy ok = true) /\
     includes validBasex (default_parameter base (VStr (u16 "base36"))) = true /\
     c = Call UuidEncoder_encode [default_parameter base (VStr (u16 "base36")); value]) /\
  (forall ok, is_undefined value = false ->
     delegate uuidvalidate [value] = Return ok -> truthy ok = false ->
     shortenUuid value base = ([Call uuidvalidate [value]], Throw (Error (u16 "Invalid UUID")))).
Proof.
  unfold shortenUuid. split.
  - intros c Hin Hc. destruct (is_undefined value); [destruct Hin|].
    destruct (delegate uuidvalidate [value]) as [ok|e|] eqn:Hok.
    + erewrite bind_invoke_return in Hin by eassumption.
      destruct Hin as [<-|Hin]; [discriminate Hc|].
      destruct (truthy ok) eqn:Ht; cbn [negb] in Hin; cbv iota in Hin;
        [|destruct Hin].
      destruct (includes validBasex (default_parameter base (VStr (u16 "base36")))) eqn:Hb;
        cbn [negb] in Hin; cbv iota in Hin; [|destruct Hin].
      destruct Hin as [<-|[]].
      split; [exists ok; split; [reflexivity | assumption]|]. split; reflexivity.
    + erewrite bind_invoke_throw in Hin by eassumption.
      destruct Hin as [<-|[]]. discriminate Hc.
    + unfold bind, invoke in Hin. rewrite Hok in Hin.
      destruct Hin as [<-|[]]. discriminate Hc.
  - intros ok Hv Hok Ht. rewrite Hv. unfold bind, invoke. rewrite Hok, Ht. reflexivity.
Qed.

(** X14.  The bases shortenUuid and unshortenUuid accept are an absent
    base, which stands for 'base36', and the nine names as strings, in
    their exact spelling; null, a number or any other value is refused. *)
Theorem accepted_bases (base : jsvalue) :
  includes validBasex (default_parameter base (VStr (u16 "base36"))) = true <->
  base = VUndefined \/ exists n, In n validBasex /\ base = VStr n.
Proof.
  unfold includes, default_parameter. split.
  - destruct base; simpl is_undefined; cbv iota; intros H;
      try (left; reflexivity);
      apply existsb_exists in H as (nm & Hn & Heq); simpl in Heq; try discriminate Heq.
    apply jsstring_eqb_eq in Heq. subst s. right. exists nm. split; [assumption | reflexivity].
  - intros [->|(n & Hn & ->)]; [reflexivity|].
    simpl is_undefined. cbv iota. apply existsb_exists. exists n.
    split; [assumption|]. simpl. apply jsstring_eqb_refl.
Qed.

(** ** languageInfo *)

Lemma read_property_cases (v : jsvalue) (k : jsstring) :
  (exists x, read_property v k = ret x) \/ (exists e, read_property v k = throw e).
Proof. destruct v; simpl; eauto. Qed.

Lemma read_property_object (o : object) (k : jsstring) :
  read_property (VObj o) k = ret (get o k).
Proof. reflexivity. Qed.

(** X15.  Whenever languageInfo returns, it has made no call for an
    undefined value and returned undefined, or it has made the one call to
    the language tag parser and returned an object of exactly the fields
    rfc5646, region and language, with rfc5646 the value as it was given. *)
Theorem languageInfo_result_shape (value r : jsvalue) :
  result (languageInfo value) = Return r ->
  (value = VUndefined /\ r = VUndefined /\ calls (languageInfo value) = []) \/
  (exists region language,
     r = VObj [ (u16 "rfc5646", value); (u16 "region", region); (u16 "language", language) ] /\
     calls (languageInfo value) = [Call LanguageTag [value]]).
Proof.
  unfold languageInfo. destruct (is_undefined value) eqn:Hu.
  { destruct value; try discriminate Hu. simpl. intros H. inversion H. left.
    repeat split. }
  destruct (delegate LanguageTag [value]) as [tag|e|] eqn:Htag.
  2: { erewrite bind_invoke_throw by eassumption. discriminate. }
  2: { unfold bind, invoke. rewrite Htag. discriminate. }
  erewrite bind_invoke_return by eassumption.
  destruct (truthy (get_property tag (u16 "invalid"))); [discriminate|].
  set (regionM := if truthy (get_property tag (u16 "region"))
                  then bind (read_property countriesList (u16 "countries"))
                         (fun countries =>
                            read_property countries
                              (ToString (get_property tag (u16 "region"))))
                  else ret VNull).
  assert (HregionM : (exists x, regionM = ret x) \/ (exists e, regionM = throw e)).
  { subst regionM.
    destruct (truthy (get_property tag (u16 "region"))); [|left; eexists; reflexivity].
    destruct (read_property_cases countriesList (u16 "countries")) as [[c ->]|[e ->]];
      [|right; exists e; reflexivity].
    rewrite bind_ret. apply read_property_cases. }
  destruct HregionM as [[region ->]|[e ->]]; [|discriminate].
  rewrite bind_ret.
  destruct (read_property_cases countriesList (u16 "languagesAll")) as [[l ->]|[e ->]];
    [|discriminate].
  rewrite bind_ret.
  destruct (read_property_cases l (ToString (get_property tag (u16 "language"))))
    as [[language ->]|[e ->]]; [|discriminate].
  rewrite bind_ret. simpl. intros H. inversion H. right. eauto.
Qed.

(** X16.  With the two tables of the countries package in place,
    languageInfo does not fail on a tag the parser accepts: the region is
    null for a tag without region, and a region or a language that a table
    does not know gives an undefined field, not an error. *)
Theorem languageInfo_total_on_accepted_tags (value tag : jsvalue)
  (tables countries languagesAll : object) :
  is_undefined value = false ->
  countriesList = VObj tables ->
  get tables (u16 "countries") = VObj countries ->
  get tables (u16 "languagesAll") = VObj languagesAll ->
  delegate LanguageTag [value] = Return tag ->
  truthy (get_property tag (u16 "invalid")) = false ->
  languageInfo value
  = ([Call LanguageTag [value]],
     Return (VObj [ (u16 "rfc5646", value);
                    (u16 "region",
                     if truthy (get_property tag (u16 "region"))
                     then get countries (ToString (get_property tag (u16 "region")))
                     else VNull);
                    (u16 "language",
                     get languagesAll (ToString (get_property tag (u16 "language")))) ])).
Proof.
  intros Hv Htables Hc Hl Htag Hinv. unfold languageInfo. rewrite Hv.
  erewrite bind_invoke_return by eassumption. rewrite Hinv, Htables.
  destruct (truthy (get_property tag (u16 "region")));
    repeat (rewrite ?read_property_object, ?bind_ret, ?Hc, ?Hl); reflexivity.
Qed.

(** ** parsePath and unicodeToASCII *)

(** X17.  parsePath has no handler of its own: an error it throws is the
    error path.parse threw on the value, or the error the JSON round trip
    threw on what path.parse returned. *)
Theorem parsePath_errors_are_delegates (value : jsvalue) (e : error) :
  result (parsePath value) = Throw e ->
  is_undefined value = false /\
  (delegate path_parse [value] = Throw e \/
   exists parsed,
     delegate path_parse [value] = Return parsed /\
     delegate JSON_parse_stringify [parsed] = Throw e).
Proof.
  unfold parsePath. destruct (is_undefined value); [discriminate|].
  destruct (delegate path_parse [value]) as [parsed|e'|] eqn:Hp.
  - erewrite bind_invoke_return by eassumption. simpl. intros H.
    split; [reflexivity|]. right. exists parsed. split; [reflexivity | exact H].
  - erewrite bind_invoke_throw by eassumption. simpl. intros H.
    inversion H; subst. split; [reflexivity | left; reflexivity].
  - unfold bind, invoke. rewrite Hp. discriminate.
Qed.

(** X18.  For a defined value and an options object, unicodeToASCII makes
    exactly one call: foldReplacing with the caller's replacement whenever
    the options give one that is not undefined (the empty string and null
    included), foldMaintaining otherwise. *)
Theorem unicodeToASCII_selects_fold (value : jsvalue) (o : object) :
  is_undefined value = false ->
  NoDup (map fst o) ->
  unicodeToASCII value (VObj o)
  = if negb (is_undefined (get o (u16 "replacement")))
    then ([Call ASCIIFolder_foldReplacing [value; get o (u16 "replacement")]],
          delegate ASCIIFolder_foldReplacing [value; get o (u16 "replacement")])
    else ([Call ASCIIFolder_foldMaintaining [value]],
          delegate ASCIIFolder_foldMaintaining [value]).
Proof.
  intros Hv Hnd. unfold unicodeToASCII. rewrite Hv.
  assert (Hmerged : get (spread [(u16 "replacement", VUndefined)] (VObj o)) (u16 "replacement")
                    = get o (u16 "replacement")).
  { unfold spread. simpl own_enumerable. rewrite get_fold_set by assumption.
    destruct (has_key o (u16 "replacement")) eqn:Hk; [reflexivity|].
    rewrite (has_key_false_get _ _ Hk). reflexivity. }
  rewrite Hmerged. reflexivity.
Qed.

(** ** Registration and the callers *)

Lemma register_all_stops (rf : registration -> option error) (todo : list registration) :
  exists rest,
    todo = fst (register_all rf todo) ++ rest /\
    (snd (register_all rf todo) = Return tt ->
     rest = [] /\ Forall (fun r => rf r = None) todo) /\
    (forall e, snd (register_all rf todo) = Throw e ->
     exists accepted r,
       fst (register_all rf todo) = accepted ++ [r] /\
       rf r = Some e /\ Forall (fun x => rf x = None) accepted) /\
    snd (register_all rf todo) <> OutOfFuel.
Proof.
  induction todo as [|r todo IH]; simpl.
  - exists []. repeat split; try discriminate; constructor.
  - destruct (rf r) as [e|] eqn:Hr; simpl.
    + exists todo. repeat split; try discriminate.
      intros e' H. inversion H; subst. exists [], r. repeat split; [assumption | constructor].
    + destruct IH as (rest & Hprefix & Hret & Hthrow & Hfuel).
      destruct (register_all rf todo) as [made c]. simpl in *.
      exists rest. split; [now rewrite <- Hprefix|]. split; [|split; [|assumption]].
      * intros H. destruct (Hret H) as [-> Hall]. split; [reflexivity|].
        constructor; assumption.
      * intros e H. destruct (Hthrow e H) as (accepted & r' & -> & Hr' & Hall).
        exists (r :: accepted), r'. repeat split; [assumption|].
        constructor; assumption.
Qed.

(** X19.  registerWithJSONATA binds the functions in the order of the
    source and stops at the first binding the host refuses: the calls made
    are a prefix of the thirteen; it returns only when the host accepted
    all of them, and an error is the error of the last call made, every
    call before it having been accepted. *)
Theorem registerWithJSONATA_stops_at_refusal (rf : registration -> option error) :
  exists rest,
    registrations = fst (registerWithJSONATA (ExpressionObject (Some rf))) ++ rest /\
    (snd (registerWithJSONATA (ExpressionObject (Some rf))) = Return tt ->
     rest = [] /\ Forall (fun r => rf r = None) registrations) /\
    (forall e, snd (registerWithJSONATA (ExpressionObject (Some rf))) = Throw e ->
     exists accepted r,
       fst (registerWithJSONATA (ExpressionObject (Some rf))) = accepted ++ [r] /\
       rf r = Some e /\ Forall (fun x => rf x = None) accepted).
Proof.
  destruct (register_all_stops rf registrations) as (rest & H1 & H2 & H3 & _).
  exists rest. split; [exact H1|]. split; [exact H2 | exact H3].
Qed.

(** X20.  jsonataExtended returns the expression object jsonata built,
    after the thirteen functions have been registered on it; when jsonata
    throws, its error comes out unchanged and nothing is registered. *)
Theorem jsonataExtended_registers (jsonataOriginal : jsvalue -> jsvalue -> completion expression)
  (expr options : jsvalue) :
  (forall rf, jsonataOriginal expr options = Return (ExpressionObject (Some rf)) ->
     (forall x, rf x = None) ->
     jsonataExtended jsonataOriginal expr options
     = (registrations, Return (ExpressionObject (Some rf)))) /\
  (forall e, jsonataOriginal expr options = Throw e ->
     jsonataExtended jsonataOriginal expr options = ([], Throw e)).
Proof.
  unfold jsonataExtended. split.
  - intros rf H Hrf. rewrite H, registerWithJSONATA_accepting by assumption. reflexivity.
  - intros e H. rewrite H. reflexivity.
Qed.


End FurtherProperties.

(** * Further runs on the small runtime *)

Import MoreExamples.

(** A pattern of one atom consumes a code point whenever it matches. *)
Lemma single_atom_consumes (a : Mini.atom) (s : jsstring) (i e : nat) :
  Mini.match_at [Mini.One a] s i = Some e -> i < e.
Proof.
  simpl. unfold Mini.atom_match, Mini.code_point_at.
  destruct (nth_error s i) as [h|]; [|discriminate].
  destruct (nth_error s (S i)) as [l|];
    [destruct (is_high_surrogate h && is_low_surrogate l)|];
    match goal with |- context [if ?b then _ else _] => destruct b end;
    intros H; inversion H; lia.
Qed.

Lemma options_override_defaults_witness :
  NoDup (map fst [(u16 "length", num 5)]) /\
  get (spread defaultOptions (VObj [(u16 "length", num 5)])) (u16 "length") = num 5.
Proof.
  split; [repeat constructor; simpl; tauto|].
  apply (options_override_defaults defaultOptions [(u16 "length", num 5)] (u16 "length")).
  repeat constructor. simpl. tauto.
Defined.

Lemma explicit_undefined_length_rejected_witness :
  is_undefined (text "abc") = false /\
  get [(u16 "length", VUndefined)] (u16 "length") = VUndefined /\
  truncate (RT := Mini.runtime) 0 (text "abc") (VObj [(u16 "length", VUndefined)])
  = ([], Throw (TypeError
                  (u16 "Expected a number. Received options.length=undefined Type: undefined"))).
Proof.
  split; [reflexivity|]. split; [reflexivity|].
  apply (explicit_undefined_length_rejected (RT := Mini.runtime) 0 (text "abc")
           [(u16 "length", VUndefined)]);
    [reflexivity | repeat constructor; simpl; tauto | reflexivity | reflexivity].
Defined.

(** An emoji, a surrogate pair, followed by 'abcd'. *)
Lemma truncate_cuts_at_code_point_witness :
  string_iterator [55357; 56832; 97; 98; 99; 100]%Z
    = [[55357; 56832]; [97]; [98]; [99]; [100]]%Z /\
  truncate (RT := Mini.runtime) 0 (VStr [55357; 56832; 97; 98; 99; 100]%Z)
    (obj [("length"%string, num 4)])
  = ([], Return (VStr ([55357; 56832]%Z ++ u16 "..."))) /\
  exists j,
    VStr ([55357; 56832]%Z ++ u16 "...")
    = VStr (join (firstn j (string_iterator [55357; 56832; 97; 98; 99; 100]%Z)) ++ u16 "...") /\
    [55357; 56832; 97; 98; 99; 100]%Z
    = join (firstn j (string_iterator [55357; 56832; 97; 98; 99; 100]%Z))
      ++ join (skipn j (string_iterator [55357; 56832; 97; 98; 99; 100]%Z)).
Proof.
  split; [reflexivity|]. split; [reflexivity|].
  apply (truncate_cuts_at_code_point (RT := Mini.runtime) 0
           [55357; 56832; 97; 98; 99; 100]%Z (obj [("length"%string, num 4)])
           (length_ := number_of_Z 4) (omission := u16 "..."));
    reflexivity.
Defined.

Lemma long_wordbreak_never_found_witness :
  codepoint_count (u16 ", ") = 2 /\
  truncate (RT := Mini.runtime) 0 (text "ab, cd ef gh")
    (obj [("length"%string, num 10); ("wordbreak"%string, text ", ")])
  = ([], Return (text "ab, cd ...")).
Proof.
  split; [reflexivity|].
  apply (long_wordbreak_never_found (RT := Mini.runtime) 0 (u16 "ab, cd ef gh")
           (obj [("length"%string, num 10); ("wordbreak"%string, text ", ")])
           (length_ := number_of_Z 10) (omission := u16 "...") (wordbreak := u16 ", "));
    try reflexivity.
  vm_compute. discriminate.
Defined.

Lemma wordbreak_cut_at_last_occurrence_witness :
  slice0 (string_iterator (u16 "ab, cd ef gh"))
    (ToIntegerOrInfinity (endslice (number_of_Z 10) (u16 "...")))
  = map u16 ["a"; "b"; ","; " "; "c"; "d"; " "]%string /\
  truncate (RT := Mini.runtime) 0 (text "ab, cd ef gh")
    (obj [("length"%string, num 10); ("wordbreak"%string, text " ")])
  = ([], Return (text "ab, cd...")).
Proof.
  split; [reflexivity|].
  apply (wordbreak_cut_at_last_occurrence (RT := Mini.runtime) 0 (u16 "ab, cd ef gh")
           (obj [("length"%string, num 10); ("wordbreak"%string, text " ")])
           (length_ := number_of_Z 10) (omission := u16 "...") (wordbreak := u16 " ")
           (i := 6));
    try reflexivity.
  intros j Hj.
  replace (nth_error (slice0 (string_iterator (u16 "ab, cd ef gh"))
                        (ToIntegerOrInfinity (endslice (number_of_Z 10) (u16 "...")))) j)
    with (@None jsstring); [discriminate|].
  symmetry. apply nth_error_None. vm_compute length. lia.
Defined.

Lemma invalid_regex_reported_witness :
  RegExp_compile (Runtime := Mini.runtime) (u16 "(") = None /\
  truncate (RT := Mini.runtime) 5 (text "abc def ghi")
    (obj [("length"%string, num 9); ("wordbreakregex"%string, text "(");
          ("wordbreak"%string, text " ")])
  = ([Call RegExp [text "("; text "gu"]],
     Throw (Error (u16 "Error Processing workdbreakregex."))).
Proof.
  split; [reflexivity|].
  apply (invalid_regex_reported (RT := Mini.runtime) 5 (u16 "abc def ghi")
           (obj [("length"%string, num 9); ("wordbreakregex"%string, text "(");
                 ("wordbreak"%string, text " ")])
           (length_ := number_of_Z 9) (omission := u16 "..."));
    try reflexivity.
  discriminate.
Defined.

Lemma regex_without_match_falls_back_witness :
  exec (RT := Mini.runtime) [Mini.One (Mini.Class false [(120, 120)%Z])] (u16 "abc de") 0
    = None /\
  truncate (RT := Mini.runtime) 0 (text "abc def ghi")
    (obj [("length"%string, num 9); ("wordbreak"%string, text " ")])
  = ([], Return (text "abc...")) /\
  truncate (RT := Mini.runtime) 1 (text "abc def ghi")
    (obj [("length"%string, num 9); ("wordbreakregex"%string, text "x");
          ("wordbreak"%string, text " ")])
  = ([Call RegExp [text "x"; text "gu"]], Return (text "abc...")).
Proof.
  split; [reflexivity|]. split; [reflexivity|].
  apply (regex_without_match_falls_back (RT := Mini.runtime) 0 0 (u16 "abc def ghi")
           (obj [("length"%string, num 9); ("wordbreakregex"%string, text "x");
                 ("wordbreak"%string, text " ")])
           (obj [("length"%string, num 9); ("wordbreak"%string, text " ")])
           (length_ := number_of_Z 9) (omission := u16 "...") (source := u16 "x")
           (r := [Mini.One (Mini.Class false [(120, 120)%Z])]));
    try reflexivity.
  discriminate.
Defined.

Lemma search_ends_when_matches_consume_witness :
  successive_matches (RT := Mini.runtime) 9
    [Mini.One (Mini.Class false [(32, 32)%Z])] (u16 "ab, cd ") 0 = [(3, 4); (6, 7)] /\
  exists m,
    exec_loop (RT := Mini.runtime) 9 [Mini.One (Mini.Class false [(32, 32)%Z])]
      (u16 "ab, cd ") 0 (-1) = Some m /\
    m = last_match_index
          (successive_matches (RT := Mini.runtime) 9
             [Mini.One (Mini.Class false [(32, 32)%Z])] (u16 "ab, cd ") 0) /\
    (-1 <= m <= Z.of_nat (length (u16 "ab, cd ")))%Z /\
    exec (RT := Mini.runtime) [Mini.One (Mini.Class false [(32, 32)%Z])] (u16 "ab, cd ")
      (last (map snd (successive_matches (RT := Mini.runtime) 9
                        [Mini.One (Mini.Class false [(32, 32)%Z])] (u16 "ab, cd ") 0)) 0)
    = None.
Proof.
  split; [reflexivity|].
  apply (search_ends_when_matches_consume (RT := Mini.runtime) (fuel := 9)
           [Mini.One (Mini.Class false [(32, 32)%Z])] (u16 "ab, cd ")).
  - intros i e. apply single_atom_consumes.
  - vm_compute. lia.
Defined.

Lemma plain_cut_code_point_count_witness :
  ToIntegerOrInfinity (endslice (number_of_Z 30) (u16 "...")) = Int 27 /\
  truncate (RT := Mini.runtime) 0 (text "1234567890123456789012345678901234567890")
    VUndefined
  = ([], Return (text "123456789012345678901234567...")) /\
  codepoint_count (u16 "123456789012345678901234567...") = 30.
Proof.
  split; [reflexivity|].
  apply (plain_cut_code_point_count (RT := Mini.runtime) 0
           (u16 "1234567890123456789012345678901234567890") VUndefined
           (length_ := number_of_Z 30) (omission := u16 "...") (k := 27));
    try reflexivity.
  vm_compute. lia.
Defined.

Lemma htmltotext_ignores_surrounding_whitespace_witness :
  forallb is_whitespace (u16 "  ") = true /\
  forallb is_whitespace [10; 9]%Z = true /\
  htmltotext (RT := Mini.runtime) (DG := clock) (VStr (u16 "  " ++ u16 "<p>a</p>" ++ [10; 9]%Z)) VUndefined
  = htmltotext (RT := Mini.runtime) (DG := clock) (text "<p>a</p>") VUndefined.
Proof.
  split; [reflexivity|]. split; [reflexivity|].
  apply (htmltotext_ignores_surrounding_whitespace (RT := Mini.runtime) (DG := clock)
           (u16 "  ") (u16 "<p>a</p>") [10; 9]%Z VUndefined); reflexivity.
Defined.

Lemma htmltotext_converts_strings_only_witness :
  is_string (num 5) = false /\
  calls (htmltotext (RT := Mini.runtime) (DG := clock) (num 5) VUndefined) = [] /\
  exists e, result (htmltotext (RT := Mini.runtime) (DG := clock) (num 5) VUndefined) = Throw e.
Proof.
  split; [reflexivity|].
  destruct (htmltotext_converts_strings_only (RT := Mini.runtime) (DG := clock)
              (num 5) VUndefined eq_refl) as [H1 H2].
  split; [exact H1 | exact (H2 eq_refl)].
Defined.

Lemma shortenUuid_encodes_validated_only_witness :
  delegate (Delegates := uuid_library) uuidvalidate [text "not-a-uuid"] = Return (VBool false) /\
  shortenUuid (DG := uuid_library) (text "not-a-uuid") (text "base7")
  = ([Call uuidvalidate [text "not-a-uuid"]], Throw (Error (u16 "Invalid UUID"))).
Proof.
  split; [reflexivity|].
  apply (proj2 (shortenUuid_encodes_validated_only (DG := uuid_library)
                  (text "not-a-uuid") (text "base7")) (VBool false));
    reflexivity.
Defined.

Lemma accepted_bases_witness :
  includes validBasex (default_parameter (text "base58") (VStr (u16 "base36"))) = true /\
  includes validBasex (default_parameter VNull (VStr (u16 "base36"))) = false /\
  includes validBasex (default_parameter (text "BASE58") (VStr (u16 "base36"))) = false.
Proof.
  split; [|split; reflexivity].
  apply (proj2 (accepted_bases (text "base58"))). right.
  exists (u16 "base58"). split; [simpl; tauto | reflexivity].
Defined.

Lemma languageInfo_result_shape_witness :
  result (languageInfo (RT := Mini.runtime) (DG := tag_library) (text "es"))
  = Return (obj [("rfc5646"%string, text "es"); ("region"%string, VNull);
                 ("language"%string, obj [("name"%string, text "Spanish")])]) /\
  calls (languageInfo (RT := Mini.runtime) (DG := tag_library) (text "es"))
  = [Call LanguageTag [text "es"]].
Proof.
  split; [reflexivity|].
  destruct (languageInfo_result_shape (RT := Mini.runtime) (DG := tag_library) (text "es")
              (r := obj [("rfc5646"%string, text "es"); ("region"%string, VNull);
                         ("language"%string, obj [("name"%string, text "Spanish")])])
              eq_refl) as [(H & _)|(region & language & _ & H)];
    [discriminate H | exact H].
Defined.

Lemma languageInfo_total_on_accepted_tags_witness :
  delegate (Delegates := tag_library) LanguageTag [text "xx"]
  = Return (obj [("language"%string, text "xx"); ("invalid"%string, VBool false)]) /\
  languageInfo (RT := Mini.runtime) (DG := tag_library) (text "xx")
  = ([Call LanguageTag [text "xx"]],
     Return (obj [("rfc5646"%string, text "xx"); ("region"%string, VNull);
                  ("language"%string, VUndefined)])).
Proof.
  split; [reflexivity|].
  apply (languageInfo_total_on_accepted_tags (RT := Mini.runtime) (DG := tag_library)
           (text "xx")
           (tag := obj [("language"%string, text "xx"); ("invalid"%string, VBool false)])
           (tables := [(u16 "countries", obj []);
                       (u16 "languagesAll",
                        obj [("es"%string, obj [("name"%string, text "Spanish")])])])
           (countries := [])
           (languagesAll := [(u16 "es", obj [("name"%string, text "Spanish")])]));
    reflexivity.
Defined.

Lemma parsePath_errors_are_delegates_witness :
  result (parsePath (DG := path_library) (num 5))
  = Throw (TypeError (u16 "The path argument must be of type string")) /\
  delegate (Delegates := path_library) path_parse [num 5]
  = Throw (TypeError (u16 "The path argument must be of type string")).
Proof.
  split; [reflexivity|].
  destruct (parsePath_errors_are_delegates (DG := path_library) (num 5)
              (e := TypeError (u16 "The path argument must be of type string")) eq_refl)
    as [_ [H|(parsed & H & _)]]; [exact H | discriminate H].
Defined.

Lemma unicodeToASCII_selects_fold_witness :
  is_undefined (text "abc") = false /\
  unicodeToASCII (DG := clock) (text "abc") (obj [("replacement"%string, text "")])
  = ([Call ASCIIFolder_foldReplacing [text "abc"; text ""]], Return VUndefined) /\
  unicodeToASCII (DG := clock) (text "abc") (obj [("other"%string, text "")])
  = ([Call ASCIIFolder_foldMaintaining [text "abc"]], Return VUndefined).
Proof.
  split; [reflexivity|]. split.
  - apply (unicodeToASCII_selects_fold (DG := clock) (text "abc")
             [(u16 "replacement", text "")]);
      [reflexivity | repeat constructor; simpl; tauto].
  - apply (unicodeToASCII_selects_fold (DG := clock) (text "abc")
             [(u16 "other", text "")]);
      [reflexivity | repeat constructor; simpl; tauto].
Defined.

(** A host that refuses the third name is left with the first two bindings
    and the refused call. *)
Lemma registerWithJSONATA_stops_at_refusal_witness :
  map name (fst (registerWithJSONATA (RT := Mini.runtime) (DG := clock)
                   (ExpressionObject (Some (refusing_host "unshortenUuid")))))
  = map u16 ["htmltotext"; "shortenUuid"; "unshortenUuid"]%string /\
  snd (registerWithJSONATA (RT := Mini.runtime) (DG := clock)
         (ExpressionObject (Some (refusing_host "unshortenUuid"))))
  = Throw (Error (u16 "Attempted to bind a refused name")) /\
  exists accepted r,
    fst (registerWithJSONATA (RT := Mini.runtime) (DG := clock)
           (ExpressionObject (Some (refusing_host "unshortenUuid"))))
    = accepted ++ [r] /\
    refusing_host "unshortenUuid" r = Some (Error (u16 "Attempted to bind a refused name")) /\
    Forall (fun x => refusing_host "unshortenUuid" x = None) accepted.
Proof.
  split; [reflexivity|]. split; [reflexivity|].
  destruct (registerWithJSONATA_stops_at_refusal (RT := Mini.runtime) (DG := clock)
              (refusing_host "unshortenUuid")) as (rest & _ & _ & H).
  apply H. reflexivity.
Defined.

Lemma jsonataExtended_registers_witness :
  jsonataExtended (RT := Mini.runtime) (DG := clock) string_jsonata (text "$truncate(a)") VUndefined
  = (registrations (RT := Mini.runtime) (DG := clock), Return accepting_host) /\
  jsonataExtended (RT := Mini.runtime) (DG := clock) string_jsonata (num 5) VUndefined
  = ([], Throw (Error (u16 "Syntax error"))).
Proof.
  destruct (jsonataExtended_registers (RT := Mini.runtime) (DG := clock) string_jsonata
              (text "$truncate(a)") VUndefined) as [H1 _].
  destruct (jsonataExtended_registers (RT := Mini.runtime) (DG := clock) string_jsonata
              (num 5) VUndefined) as [_ H2].
  split.
  - apply (H1 (fun _ => None)); reflexivity.
  - apply H2. reflexivity.
Defined.


Lemma truncate_bounded_when_omission_fits_witness :
  ToIntegerOrInfinity (endslice (number_of_Z 5) (u16 "...")) = Int 2 /\
  result (truncate (RT := Mini.runtime) 0 (text "abcdef") (obj [("length"%string, num 5)]))
  = Return (text "ab...") /\
  exists t,
    text "ab..." = VStr t /\ ends_with t (u16 "...") /\
    codepoint_count t <= Z.to_nat 2 + codepoint_count (u16 "...").
Proof.
  split; [reflexivity|]. split; [reflexivity|].
  apply (truncate_bounded_when_omission_fits (RT := Mini.runtime) 0 (u16 "abcdef")
           (obj [("length"%string, num 5)]) (length_ := number_of_Z 5)
           (omission := u16 "...") (k := 2%Z));
    try reflexivity.
  lia.
Defined.

